(** * Message coercion of codex-lb: [app/core/openai/message_coercion.py]

    A shallow embedding of the chat-message coercion engine and the
    properties its specification states about it.

    Layout: the Python values the module works on ([Py]), the failures, the
    functions of [message_coercion.py] (helpers before their callers), the
    reference definitions the statements compare them with, and then the
    lemmas and theorems. *)

From Stdlib Require Import String Ascii List ZArith Lia Bool DecimalString.
Import ListNotations.

Local Open Scope string_scope.

(* ================================================================= *)
(** ** Python values *)

Module Py.

(** A Python [str] is carried by the bytes of its UTF-8 encoding (a lone
    surrogate by its three-byte generalised encoding): concatenation,
    emptiness, equality and [join] are the same on both sides, and the two
    operations that look at characters, [strip] and the escaping of
    [json.dumps], are written out on the encoded form below. *)
Definition str := string.

(** The one-character strings that cannot be written inside a literal. *)
Definition dquote : string := String (ascii_of_nat 34) "".
Definition newline : string := String (ascii_of_nat 10) "".

(** A Python [float].  The module never computes with one: it prints it
    ([str], [json.dumps]) or tests it for truth.  A finite float is carried by
    its [repr], which is what both printers emit. *)
Inductive PyFloat : Type :=
| FNan
| FInf
| FNegInf
| FFinite (repr : string).

(** Modelled from the spec: [JsonValue] of [app/core/types.py] is not among
    the sources; the spec has it as "JSON-compatible values" (null, booleans,
    numbers, strings, arrays, objects).  Python's [None] is [JNull].  A
    [dict] keeps its insertion order, which [json.dumps] prints, so an object
    is the list of its entries in that order.  The keys of a [dict] are
    distinct; no statement below needs it, [lookup] takes the first entry. *)
#[local] Unset Elimination Schemes.
Inductive JsonValue : Type :=
| JNull
| JBool (b : bool)
| JInt (z : Z)
| JFloat (f : PyFloat)
| JStr (s : str)
| JList (l : list JsonValue)
| JDict (d : list (string * JsonValue)).
#[local] Set Elimination Schemes.

Definition dict := list (string * JsonValue).

(** Modelled from the spec: [is_json_dict] of
    [app/core/utils/json_guards.py] is not among the sources; the spec has it
    as the shape test "is an object".  Where the source branches on it, the
    functions below match on [JDict]. *)
Definition is_json_dict (v : JsonValue) : bool :=
  match v with JDict _ => true | _ => false end.

(** Modelled from the spec: [is_json_list] of
    [app/core/utils/json_guards.py] is not among the sources; the spec has it
    as the shape test "is an array".  Where the source branches on it, the
    functions below match on [JList]. *)
Definition is_json_list (v : JsonValue) : bool :=
  match v with JList _ => true | _ => false end.

(** [bool(v)]: Python truthiness. *)
Definition float_truthy (f : PyFloat) : bool :=
  match f with
  | FFinite r => negb ((r =? "0.0") || (r =? "-0.0"))
  | _ => true
  end.

Definition str_truthy (s : str) : bool :=
  match s with "" => false | _ => true end.

Definition truthy (v : JsonValue) : bool :=
  match v with
  | JNull => false
  | JBool b => b
  | JInt z => negb (z =? 0)%Z
  | JFloat f => float_truthy f
  | JStr s => str_truthy s
  | JList l => match l with [] => false | _ => true end
  | JDict d => match d with [] => false | _ => true end
  end.

(** [d.get(k)]: the value under [k], [None] when the key is absent. *)
Fixpoint lookup (d : dict) (k : string) : option JsonValue :=
  match d with
  | [] => None
  | (k', v) :: rest => if k' =? k then Some v else lookup rest k
  end.

Definition get (d : dict) (k : string) : JsonValue :=
  match lookup d k with Some v => v | None => JNull end.

(** [k in d]. *)
Definition contains (d : dict) (k : string) : bool :=
  match lookup d k with Some _ => true | None => false end.

(** [d[k] = v] on a copy of [d]: an existing key keeps its place. *)
Fixpoint set (d : dict) (k : string) (v : JsonValue) : dict :=
  match d with
  | [] => [(k, v)]
  | (k', v') :: rest =>
      if k' =? k then (k', v) :: rest else (k', v') :: set rest k v
  end.

(** [sep.join(parts)]. *)
Definition join (sep : str) (parts : list str) : str := String.concat sep parts.

(** [str(n)] for an [int]. *)
Definition str_int (z : Z) : str := NilZero.string_of_int (Z.to_int z).
Definition str_nat (n : nat) : str := str_int (Z.of_nat n).

Definition float_str (f : PyFloat) : str :=
  match f with
  | FNan => "nan"
  | FInf => "inf"
  | FNegInf => "-inf"
  | FFinite r => r
  end.

(** [str(v)], also what an f-string prints, for the scalars the module
    applies it to (it never prints a list or a dict this way). *)
Definition str_scalar (v : JsonValue) : str :=
  match v with
  | JNull => "None"
  | JBool true => "True"
  | JBool false => "False"
  | JInt z => str_int z
  | JFloat f => float_str f
  | JStr s => s
  | JList _ | JDict _ => ""
  end.

(** *** [str.strip()]

    Python strips the code points U+0009-000D, U+001C-0020, U+0085, U+00A0,
    U+1680, U+2000-200A, U+2028, U+2029, U+202F, U+205F and U+3000; the
    tests below recognise their encodings. *)
Definition code (c : ascii) : nat := nat_of_ascii c.

Definition between (lo hi n : nat) : bool := Nat.leb lo n && Nat.leb n hi.

Definition space1 (c : ascii) : bool :=
  between 9 13 (code c) || between 28 32 (code c).

Definition space2 (c1 c2 : ascii) : bool :=
  Nat.eqb (code c1) 194 && (Nat.eqb (code c2) 133 || Nat.eqb (code c2) 160).

Definition space3 (c1 c2 c3 : ascii) : bool :=
  (Nat.eqb (code c1) 225 && Nat.eqb (code c2) 154 && Nat.eqb (code c3) 128)
  || (Nat.eqb (code c1) 226 && Nat.eqb (code c2) 128
      && (between 128 138 (code c3) || Nat.eqb (code c3) 168
          || Nat.eqb (code c3) 169 || Nat.eqb (code c3) 175))
  || (Nat.eqb (code c1) 226 && Nat.eqb (code c2) 129 && Nat.eqb (code c3) 159)
  || (Nat.eqb (code c1) 227 && Nat.eqb (code c2) 128 && Nat.eqb (code c3) 128).

Fixpoint strip_front (two : ascii -> ascii -> bool)
    (three : ascii -> ascii -> ascii -> bool) (s : list ascii) : list ascii :=
  match s with
  | [] => []
  | c1 :: r1 =>
      if space1 c1 then strip_front two three r1
      else
        match r1 with
        | c2 :: r2 =>
            if two c1 c2 then strip_front two three r2
            else
              match r2 with
              | c3 :: r3 =>
                  if three c1 c2 c3 then strip_front two three r3 else s
              | [] => s
              end
        | [] => s
        end
  end.

Definition lstrip (s : list ascii) : list ascii := strip_front space2 space3 s.

Definition rstrip (s : list ascii) : list ascii :=
  rev (strip_front (fun a b => space2 b a) (fun a b c => space3 c b a) (rev s)).

Definition strip (s : str) : str :=
  string_of_list_ascii (rstrip (lstrip (list_ascii_of_string s))).

(** *** [json.dumps(v, ensure_ascii=False, separators=(",", ":"))] *)

Definition hex_digit (n : nat) : ascii :=
  if Nat.ltb n 10 then ascii_of_nat (48 + n) else ascii_of_nat (87 + n).

(** One character of a string literal: the quote and the backslash get a
    backslash, the control characters their short escape or [\u00XX], and
    every other byte (so every other code point) stands for itself. *)
Definition escape_char (c : ascii) : string :=
  let n := code c in
  if Nat.eqb n 34 then "\" ++ dquote
  else if Nat.eqb n 92 then "\\"
  else if Nat.eqb n 10 then "\n"
  else if Nat.eqb n 13 then "\r"
  else if Nat.eqb n 9 then "\t"
  else if Nat.eqb n 8 then "\b"
  else if Nat.eqb n 12 then "\f"
  else if Nat.ltb n 32 then
    "\u00" ++ String (hex_digit (n / 16)) (String (hex_digit (n mod 16)) "")
  else String c "".

Fixpoint escape (s : str) : string :=
  match s with
  | "" => ""
  | String c rest => escape_char c ++ escape rest
  end.

Definition encode_basestring (s : str) : string := dquote ++ escape s ++ dquote.

Definition float_json (f : PyFloat) : string :=
  match f with
  | FNan => "NaN"
  | FInf => "Infinity"
  | FNegInf => "-Infinity"
  | FFinite r => r
  end.

Fixpoint json_dumps (v : JsonValue) : string :=
  match v with
  | JNull => "null"
  | JBool true => "true"
  | JBool false => "false"
  | JInt z => str_int z
  | JFloat f => float_json f
  | JStr s => encode_basestring s
  | JList l => "[" ++ join "," (map json_dumps l) ++ "]"
  | JDict d =>
      "{" ++ join ","
               (map (fun kv => encode_basestring (fst kv) ++ ":" ++ json_dumps (snd kv)) d)
          ++ "}"
  end.

End Py.

Import Py.

(* ================================================================= *)
(** ** Failures *)

(** Modelled from the spec: [ClientPayloadError] of
    [app/core/openai/exceptions.py] is not among the sources; the spec has it
    as the single reportable kind of failure, "parameterized by a
    human-readable message and the offending field name".  A raised exception
    is the left injection of [result]: a call that raises returns nothing
    else. *)
Record ClientPayloadError : Type := mkClientPayloadError
  { error_message : string; error_param : string }.

Definition result (A : Type) : Type := (ClientPayloadError + A)%type.

Definition raise {A : Type} (e : ClientPayloadError) : result A := inl e.
Definition ret {A : Type} (a : A) : result A := inr a.
Definition bind {A B : Type} (m : result A) (k : A -> result B) : result B :=
  match m with
  | inl e => inl e
  | inr a => k a
  end.

Notation "x <- m ;; k" := (bind m (fun x => k))
  (at level 61, m at next level, right associativity).
Notation "m ;;; k" := (bind m (fun _ => k))
  (at level 61, right associativity).

(** The messages the module raises, all with [param="messages"]. *)
Definition payload_error (msg : string) : ClientPayloadError :=
  mkClientPayloadError msg "messages".

Definition not_an_object_error : ClientPayloadError :=
  payload_error "Each message must be an object.".
Definition missing_role_error : ClientPayloadError :=
  payload_error "Each message must include a string 'role'.".
Definition unsupported_role_error (role : str) : ClientPayloadError :=
  payload_error ("Unsupported message role: " ++ role).
Definition text_only_error (role : str) : ClientPayloadError :=
  payload_error (role ++ " messages must be text-only.").
Definition tool_call_id_error : ClientPayloadError :=
  payload_error "tool messages must include 'tool_call_id'.".
Definition tool_call_object_error (index : nat) : ClientPayloadError :=
  payload_error ("assistant tool_calls[" ++ str_nat index ++ "] must be an object.").
Definition tool_call_missing_id_error (index : nat) : ClientPayloadError :=
  payload_error
    ("assistant tool_calls[" ++ str_nat index ++ "] must include a non-empty 'id'.").
Definition tool_call_function_error (index : nat) : ClientPayloadError :=
  payload_error
    ("assistant tool_calls[" ++ str_nat index ++ "] must include a 'function' object.").
Definition tool_call_name_error (index : nat) : ClientPayloadError :=
  payload_error
    ("assistant tool_calls[" ++ str_nat index
       ++ "].function must include a non-empty 'name'.").

(* ================================================================= *)
(** ** The functions of [message_coercion.py] *)

(** Small tests the source writes inline. *)

(** [isinstance(v, str) and v] *)
Definition nonempty_str (v : JsonValue) : bool :=
  match v with JStr s => str_truthy s | _ => false end.

(** [v == s] for a string literal [s]. *)
Definition str_is (v : JsonValue) (s : string) : bool :=
  match v with JStr s' => s' =? s | _ => false end.

(** [v in (None, "text")] *)
Definition none_or_text (v : JsonValue) : bool :=
  match v with JNull => true | _ => str_is v "text" end.

Definition is_none (v : JsonValue) : bool :=
  match v with JNull => true | _ => false end.

Definition _SUPPORTED_MESSAGE_ROLES : list string :=
  ["system"; "developer"; "user"; "assistant"; "tool"].

Definition supported_role (role : str) : bool :=
  existsb (String.eqb role) _SUPPORTED_MESSAGE_ROLES.

Definition _merge_instructions (existing : str) (extra_parts : list str) : str :=
  match extra_parts with
  | [] => existing
  | _ =>
      let extra := join newline (filter str_truthy extra_parts) in
      if negb (str_truthy extra) then existing
      else if str_truthy existing then existing ++ newline ++ extra
      else extra
  end.

(** The loop of [_content_to_text] (lines 60-66), which
    [_normalize_tool_output_value] repeats (lines 221-229): the string
    elements and the string [text] fields, in order. *)
Fixpoint collect_text_parts (content : list JsonValue) : list str :=
  match content with
  | [] => []
  | JStr part :: rest => part :: collect_text_parts rest
  | JDict part :: rest =>
      match get part "text" with
      | JStr text => text :: collect_text_parts rest
      | _ => collect_text_parts rest
      end
  | _ :: rest => collect_text_parts rest
  end.

Definition _content_to_text (content : JsonValue) : option str :=
  match content with
  | JNull => None
  | JStr s => Some s
  | JList parts => Some (join newline (filter str_truthy (collect_text_parts parts)))
  | JDict d =>
      match get d "text" with
      | JStr text => Some text
      | _ => None
      end
  | _ => None
  end.

(** The body of the loop of [_ensure_text_only_content] (lines 83-92), also
    the single-object case (lines 95-101). *)
Definition ensure_text_only_object (part : dict) (role : str) : result unit :=
  if negb (none_or_text (get part "type")) then raise (text_only_error role)
  else
    match get part "text" with
    | JStr _ => ret tt
    | _ => raise (text_only_error role)
    end.

Fixpoint ensure_text_only_parts (content : list JsonValue) (role : str) : result unit :=
  match content with
  | [] => ret tt
  | JStr _ :: rest => ensure_text_only_parts rest role
  | JDict part :: rest =>
      ensure_text_only_object part role ;;; ensure_text_only_parts rest role
  | _ :: _ => raise (text_only_error role)
  end.

Definition _ensure_text_only_content (content : JsonValue) (role : str) : result unit :=
  match content with
  | JNull => ret tt
  | JStr _ => ret tt
  | JList parts => ensure_text_only_parts parts role
  | JDict d => ensure_text_only_object d role
  | _ => raise (text_only_error role)
  end.

Definition _audio_mime_type (audio_format : str) : str :=
  if audio_format =? "wav" then "audio/wav"
  else if audio_format =? "mp3" then "audio/mpeg"
  else "audio/" ++ audio_format.

Definition _audio_input_to_data_url (input_audio : JsonValue) : option str :=
  match input_audio with
  | JDict input_audio =>
      match get input_audio "data", get input_audio "format" with
      | JStr data, JStr audio_format =>
          Some ("data:" ++ _audio_mime_type audio_format ++ ";base64," ++ data)
      | _, _ => None
      end
  | _ => None
  end.

Definition _file_part_to_input_file (file_info : JsonValue) : dict :=
  match file_info with
  | JDict file_info =>
      if nonempty_str (get file_info "file_id")
      then [("type", JStr "input_file"); ("file_id", get file_info "file_id")]
      else if nonempty_str (get file_info "file_url")
      then [("type", JStr "input_file"); ("file_url", get file_info "file_url")]
      else
        let file_data :=
          match get file_info "file_data" with
          | JStr file_data => JStr file_data
          | _ =>
              match get file_info "data" with
              | JStr data => JStr data
              | _ => JNull
              end
          end in
        match file_data with
        | JStr file_data =>
            let mime_type := get file_info "mime_type" in
            let mime_type :=
              if negb (nonempty_str mime_type) then get file_info "content_type"
              else mime_type in
            let mime_type :=
              if negb (nonempty_str mime_type) then JStr "application/octet-stream"
              else mime_type in
            [("type", JStr "input_file");
             ("file_url",
              JStr ("data:" ++ str_scalar mime_type ++ ";base64," ++ file_data))]
        | _ => [("type", JStr "input_file")]
        end
  | _ => [("type", JStr "input_file")]
  end.

Definition _normalize_content_part (part : dict) : JsonValue :=
  let part_type :=
    if truthy (get part "type") then get part "type"
    else if contains part "text" then JStr "text" else JNull in
  if str_is part_type "text" || str_is part_type "input_text" then
    match get part "text" with
    | JStr text => JDict [("type", JStr "input_text"); ("text", JStr text)]
    | _ => JDict part
    end
  else if str_is part_type "image_url" then
    let image_url := get part "image_url" in
    let url_detail :=
      match image_url with
      | JDict image_url =>
          (get image_url "url",
           match get image_url "detail" with
           | JStr detail_value => Some detail_value
           | _ => None
           end)
      | JStr _ => (image_url, None)
      | _ => (JNull, None)
      end in
    match fst url_detail with
    | JStr url =>
        JDict ([("type", JStr "input_image"); ("image_url", JStr url)]
                 ++ match snd url_detail with
                    | Some detail => [("detail", JStr detail)]
                    | None => []
                    end)%list
    | _ => JDict part
    end
  else if str_is part_type "input_image" then JDict part
  else if str_is part_type "input_audio" then
    match _audio_input_to_data_url (get part "input_audio") with
    | Some data_url =>
        if str_truthy data_url
        then JDict [("type", JStr "input_file"); ("file_url", JStr data_url)]
        else JDict part
    | None => JDict part
    end
  else if str_is part_type "file" then JDict (_file_part_to_input_file (get part "file"))
  else JDict part.

(** The body of the loop of [_normalize_content_parts] (lines 249-255). *)
Definition normalize_part (part : JsonValue) : JsonValue :=
  match part with
  | JStr s => JDict [("type", JStr "input_text"); ("text", JStr s)]
  | JDict d => _normalize_content_part d
  | _ => part
  end.

Definition _normalize_content_parts (content : JsonValue) : JsonValue :=
  match content with
  | JNull => content
  | JStr s => JList [JDict [("type", JStr "input_text"); ("text", JStr s)]]
  | JList parts => JList (map normalize_part parts)
  | _ =>
      match map normalize_part [content] with
      | first :: _ => first
      | [] => JStr ""
      end
  end.

(** [normalized is content] (line 109) holds only when the two are equal, and
    then the update of the copy writes back the value already there
    ([set_get_same] below): the early return is not observable in the value
    returned, and the update stands for both branches. *)
Definition _normalize_message_content (message : dict) : dict :=
  match get message "content" with
  | JNull => message
  | content => set message "content" (_normalize_content_parts content)
  end.

Definition _normalize_tool_output_value (content : JsonValue) : str :=
  match content with
  | JNull => ""
  | JStr s => s
  | JList l =>
      match collect_text_parts l with
      | [] => json_dumps content
      | parts => join newline (filter str_truthy parts)
      end
  | JDict d =>
      match get d "text" with
      | JStr text => text
      | _ => json_dumps content
      end
  | _ => str_scalar content
  end.

Definition _normalize_tool_message (message : dict) : result dict :=
  let tool_call_id := get message "tool_call_id" in
  let tool_call_id_camel := get message "toolCallId" in
  let call_id := get message "call_id" in
  let resolved_call_id := if nonempty_str tool_call_id then tool_call_id else JNull in
  let resolved_call_id :=
    if is_none resolved_call_id && nonempty_str tool_call_id_camel
    then tool_call_id_camel else resolved_call_id in
  let resolved_call_id :=
    if is_none resolved_call_id && nonempty_str call_id
    then call_id else resolved_call_id in
  if negb (nonempty_str resolved_call_id) then raise tool_call_id_error
  else
    ret [("type", JStr "function_call_output");
         ("call_id", resolved_call_id);
         ("output", JStr (_normalize_tool_output_value (get message "content")))].

Definition _normalize_tool_call_arguments (arguments : JsonValue) : str :=
  match arguments with
  | JNull => "{}"
  | JStr s => s
  | JDict _ | JList _ => json_dumps arguments
  | _ => str_scalar arguments
  end.

Definition _normalize_assistant_tool_call (tool_call : dict) (index : nat) : result dict :=
  let call_id := get tool_call "id" in
  if negb (nonempty_str call_id) then raise (tool_call_missing_id_error index)
  else
    match get tool_call "function" with
    | JDict function =>
        let name := get function "name" in
        if negb (nonempty_str name) then raise (tool_call_name_error index)
        else
          let raw_arguments := get function "arguments" in
          let arguments := _normalize_tool_call_arguments raw_arguments in
          ret [("type", JStr "function_call");
               ("call_id", call_id);
               ("name", name);
               ("arguments", JStr arguments)]
    | _ => raise (tool_call_function_error index)
    end.

Fixpoint has_non_empty_part (content : list JsonValue) : bool :=
  match content with
  | [] => false
  | JStr part :: rest =>
      if str_truthy (strip part) then true else has_non_empty_part rest
  | JDict part :: rest =>
      let text := get part "text" in
      if match text with JStr t => str_truthy (strip t) | _ => false end then true
      else if is_none text && truthy (JDict part) then true
      else has_non_empty_part rest
  | _ :: _ => true
  end.

Definition _has_non_empty_content (content : JsonValue) : bool :=
  match content with
  | JNull => false
  | JStr s => str_truthy (strip s)
  | JList parts => has_non_empty_part parts
  | JDict d =>
      match get d "text" with
      | JStr text => str_truthy (strip text)
      | _ => truthy content
      end
  | _ => false
  end.

(** The loop over [enumerate(tool_calls)] (lines 144-147). *)
Fixpoint normalize_tool_calls (tool_calls : list JsonValue) (index : nat)
    : result (list JsonValue) :=
  match tool_calls with
  | [] => ret []
  | JDict tool_call :: rest =>
      item <- _normalize_assistant_tool_call tool_call index ;;
      items <- normalize_tool_calls rest (S index) ;;
      ret (JDict item :: items)
  | _ :: _ => raise (tool_call_object_error index)
  end.

Definition _normalize_assistant_message_items (message : dict) : result (list JsonValue) :=
  let normalized_message := _normalize_message_content message in
  let content := get normalized_message "content" in
  let normalized_items :=
    if _has_non_empty_content content then [JDict normalized_message] else [] in
  match get message "tool_calls" with
  | JList tool_calls =>
      calls <- normalize_tool_calls tool_calls 0 ;;
      ret (normalized_items ++ calls)%list
  | _ => ret normalized_items
  end.

(** What one iteration of the loop of [coerce_messages] (lines 17-37) does
    with the two accumulators. *)
Definition coerce_message (message : JsonValue)
    (instruction_parts : list str) (input_messages : list JsonValue)
    : result (list str * list JsonValue) :=
  match message with
  | JDict message =>
      match get message "role" with
      | JStr role =>
          if negb (supported_role role) then raise (unsupported_role_error role)
          else if (role =? "system") || (role =? "developer") then
            _ensure_text_only_content (get message "content") role ;;;
            match _content_to_text (get message "content") with
            | Some content_text =>
                if str_truthy content_text
                then ret ((instruction_parts ++ [content_text])%list, input_messages)
                else ret (instruction_parts, input_messages)
            | None => ret (instruction_parts, input_messages)
            end
          else if role =? "tool" then
            item <- _normalize_tool_message message ;;
            ret (instruction_parts, (input_messages ++ [JDict item])%list)
          else if role =? "assistant" then
            items <- _normalize_assistant_message_items message ;;
            ret (instruction_parts, (input_messages ++ items)%list)
          else
            ret (instruction_parts,
                 (input_messages ++ [JDict (_normalize_message_content message)])%list)
      | _ => raise missing_role_error
      end
  | _ => raise not_an_object_error
  end.

Fixpoint coerce_loop (messages : list JsonValue)
    (instruction_parts : list str) (input_messages : list JsonValue)
    : result (list str * list JsonValue) :=
  match messages with
  | [] => ret (instruction_parts, input_messages)
  | message :: rest =>
      acc <- coerce_message message instruction_parts input_messages ;;
      coerce_loop rest (fst acc) (snd acc)
  end.

Definition coerce_messages (existing_instructions : str) (messages : list JsonValue)
    : result (str * list JsonValue) :=
  acc <- coerce_loop messages [] [] ;;
  ret (_merge_instructions existing_instructions (fst acc), snd acc).

(* ================================================================= *)
(** ** Reference definitions

    What the specification says in its own words, to be compared with the
    functions above. *)

(** The failure causes the specification names; the code tells them apart
    by the message only. *)
Definition MissingToolCallId (e : ClientPayloadError) : Prop :=
  e = tool_call_id_error \/ exists index, e = tool_call_missing_id_error index.

Definition NonTextContent (e : ClientPayloadError) : Prop :=
  exists role, e = text_only_error role.

(** The canonical shapes of the output. *)
Definition input_text (text : str) : JsonValue :=
  JDict [("type", JStr "input_text"); ("text", JStr text)].

Definition function_call (call_id name arguments : str) : dict :=
  [("type", JStr "function_call"); ("call_id", JStr call_id);
   ("name", JStr name); ("arguments", JStr arguments)].

Definition function_call_output (call_id output : str) : dict :=
  [("type", JStr "function_call_output"); ("call_id", JStr call_id);
   ("output", JStr output)].

(** The input of the specification's scenario and the items it lists. *)
Definition scenario_assistant : dict :=
  [("role", JStr "assistant"); ("content", JNull);
   ("tool_calls",
    JList [JDict [("id", JStr "c1");
                  ("function",
                   JDict [("name", JStr "lookup");
                          ("arguments", JDict [("q", JStr "x")])])]])].

Definition scenario : list JsonValue :=
  [ JDict [("role", JStr "system"); ("content", JStr "Be terse.")];
    JDict [("role", JStr "user"); ("content", JStr "Hi")];
    JDict scenario_assistant;
    JDict [("role", JStr "tool"); ("tool_call_id", JStr "c1"); ("content", JStr "42")] ].

Definition scenario_call : dict :=
  function_call "c1" "lookup"
    ("{" ++ dquote ++ "q" ++ dquote ++ ":" ++ dquote ++ "x" ++ dquote ++ "}").

Definition scenario_items : list JsonValue :=
  [ JDict [("role", JStr "user"); ("content", JList [input_text "Hi"])];
    JDict scenario_call;
    JDict (function_call_output "c1" "42") ].

(** "Newline-join all non-empty texts extracted from system/developer
    messages in input order". *)
Definition is_instruction_message (message : JsonValue) : bool :=
  match message with
  | JDict m => str_is (get m "role") "system" || str_is (get m "role") "developer"
  | _ => false
  end.

Definition extracted_text (message : JsonValue) : list str :=
  match message with
  | JDict m =>
      if is_instruction_message message then
        match _content_to_text (get m "content") with
        | Some text => if str_truthy text then [text] else []
        | None => []
        end
      else []
  | _ => []
  end.

Definition extracted_texts (messages : list JsonValue) : list str :=
  flat_map extracted_text messages.

(** "If that joined new text is non-empty, the result is
    existing-instructions + newline + new-text when the existing instructions
    are non-empty, and the new text alone otherwise; if no non-empty new text
    was extracted, the result is exactly the existing instructions". *)
Definition merge_policy (existing new_text : str) : str :=
  match new_text, existing with
  | "", _ => existing
  | _, "" => new_text
  | _, _ => existing ++ newline ++ new_text
  end.

(** "Checking tool_call_id, then toolCallId, then call_id, taking the first
    that is a non-empty string". *)
Fixpoint first_non_empty_string (candidates : list JsonValue) : option str :=
  match candidates with
  | [] => None
  | JStr (String c s) :: _ => Some (String c s)
  | _ :: rest => first_non_empty_string rest
  end.

Definition resolved_call_id (message : dict) : option str :=
  first_non_empty_string
    [get message "tool_call_id"; get message "toolCallId"; get message "call_id"].

(** "null -> the string {}; already-a-string -> passthrough verbatim; object
    or array -> compact JSON encoding; any other scalar -> its string form". *)
Inductive arguments_encoding : JsonValue -> str -> Prop :=
| encode_null : arguments_encoding JNull "{}"
| encode_string (s : str) : arguments_encoding (JStr s) s
| encode_object (d : dict) : arguments_encoding (JDict d) (json_dumps (JDict d))
| encode_array (l : list JsonValue) : arguments_encoding (JList l) (json_dumps (JList l))
| encode_true : arguments_encoding (JBool true) "True"
| encode_false : arguments_encoding (JBool false) "False"
| encode_int (z : Z) : arguments_encoding (JInt z) (str_int z)
| encode_float (f : PyFloat) : arguments_encoding (JFloat f) (float_str f).

(** The malformed tool call of the specification: an empty [id]. *)
Definition malformed_tool_calls : JsonValue :=
  JList [JDict [("id", JStr ""); ("function", JDict [("name", JStr "f")])]].

(** An input in which a message of an unsupported role precedes the
    malformed assistant message. *)
Definition malformed_after_unsupported : list JsonValue :=
  [ JDict [("role", JStr "moderator"); ("content", JStr "Hi")];
    JDict [("role", JStr "assistant"); ("tool_calls", malformed_tool_calls)] ].

(** "Canonical tag: one of input_text, input_image, input_file". *)
Definition canonical_tags : list string := ["input_text"; "input_image"; "input_file"].

Definition canonical_part (part : JsonValue) : bool :=
  match part with
  | JDict d => existsb (str_is (get d "type")) canonical_tags
  | _ => false
  end.

(** The parts the normalizer builds: "every output part has exactly the
    fields its tag requires". *)
Inductive built_part : dict -> Prop :=
| built_text (text : str) :
    built_part [("type", JStr "input_text"); ("text", JStr text)]
| built_image (url : str) :
    built_part [("type", JStr "input_image"); ("image_url", JStr url)]
| built_image_detail (url detail : str) :
    built_part [("type", JStr "input_image"); ("image_url", JStr url);
                ("detail", JStr detail)]
| built_file_url (url : str) :
    built_part [("type", JStr "input_file"); ("file_url", JStr url)]
| built_file_id (file_id : str) :
    built_part [("type", JStr "input_file"); ("file_id", JStr file_id)]
| built_file_bare :
    built_part [("type", JStr "input_file")].

(** An emitted item that is a user or assistant message. *)
Definition is_message_item (item : dict) : bool :=
  str_is (get item "role") "user" || str_is (get item "role") "assistant".

(** An assistant message whose content holds a part of a tag the normalizer
    does not know. *)
Definition refusal_part : JsonValue :=
  JDict [("type", JStr "refusal"); ("refusal", JStr "I cannot help with that.")].

Definition refusal_message : dict :=
  [("role", JStr "assistant"); ("content", JList [refusal_part])].

(** The shapes of text-only content: "null, a string, an array whose every
    element is a string or an object with [type] absent-or-text and a string
    [text] field, or a single object satisfying that same per-element rule".
    The rule on [type] is a parameter: [type_absent_or_text] is the rule in
    those words, [type_absent_null_or_text] also admits a [type] that is
    present and null. *)
Definition is_str (v : JsonValue) : bool :=
  match v with JStr _ => true | _ => false end.

Definition type_absent_or_text (d : dict) : bool :=
  match lookup d "type" with
  | None => true
  | Some type => str_is type "text"
  end.

Definition type_absent_null_or_text (d : dict) : bool :=
  match lookup d "type" with
  | None => true
  | Some JNull => true
  | Some type => str_is type "text"
  end.

Definition text_part (type_ok : dict -> bool) (part : JsonValue) : bool :=
  match part with
  | JStr _ => true
  | JDict d => type_ok d && is_str (get d "text")
  | _ => false
  end.

Definition text_only (type_ok : dict -> bool) (content : JsonValue) : bool :=
  match content with
  | JNull => true
  | JStr _ => true
  | JList parts => forallb (text_part type_ok) parts
  | JDict _ => text_part type_ok content
  | _ => false
  end.

(** A system message whose only part has a [type] that is present and
    null. *)
Definition null_type_content : JsonValue :=
  JList [JDict [("type", JNull); ("text", JStr "Be terse.")]].

Definition image_content : JsonValue :=
  JList [JDict [("type", JStr "image_url"); ("image_url", JStr "http://x")]].

Definition system_message (content : JsonValue) : JsonValue :=
  JDict [("role", JStr "system"); ("content", content)].

(** "Compact (no extraneous whitespace) JSON encoding": no blank (space,
    tab, newline, carriage return) stands outside the string literals of the
    text.  The scan follows the literals of a JSON text: a quote opens one,
    the next unescaped quote closes it. *)
Inductive scan_state : Type := Outside | Inside | Escaped.

Definition is_blank (c : ascii) : bool :=
  existsb (Nat.eqb (code c)) [32; 9; 10; 13].

Fixpoint blank_outside_strings (state : scan_state) (text : string) : bool :=
  match text with
  | "" => false
  | String c rest =>
      match state with
      | Outside =>
          if Nat.eqb (code c) 34 then blank_outside_strings Inside rest
          else if is_blank c then true
          else blank_outside_strings Outside rest
      | Inside =>
          if Nat.eqb (code c) 92 then blank_outside_strings Escaped rest
          else if Nat.eqb (code c) 34 then blank_outside_strings Outside rest
          else blank_outside_strings Inside rest
      | Escaped => blank_outside_strings Inside rest
      end
  end.

(** The [repr] of a finite float is spelled with digits, a point, an
    exponent mark and signs. *)
Definition float_repr_spelled (r : string) : bool :=
  forallb (fun c => existsb (Ascii.eqb c) (list_ascii_of_string "0123456789.e+-"))
    (list_ascii_of_string r).

Fixpoint floats_spelled (v : JsonValue) : bool :=
  match v with
  | JFloat (FFinite r) => float_repr_spelled r
  | JList l => forallb floats_spelled l
  | JDict d => forallb (fun kv => floats_spelled (snd kv)) d
  | _ => true
  end.

(** A token the scan passes over without changing state. *)
Definition transparent (state : scan_state) (token : string) : Prop :=
  forall rest,
    blank_outside_strings state (token ++ rest) = blank_outside_strings state rest.

(** The kinds of item the router emits: a user or assistant message, or
    an object without [role] tagged [function_call] or
    [function_call_output]. *)
Definition emitted_item_kind (item : JsonValue) : Prop :=
  exists d,
    item = JDict d
    /\ (get d "role" = JStr "user"
        \/ get d "role" = JStr "assistant"
        \/ (contains d "role" = false
            /\ (get d "type" = JStr "function_call"
                \/ get d "type" = JStr "function_call_output"))).

(** Content the assistant path takes for empty: null, or a string of
    blanks only. *)
Definition blank_content (content : JsonValue) : bool :=
  match content with
  | JNull => true
  | JStr s => negb (str_truthy (strip s))
  | _ => false
  end.

(** A well-formed entry of [tool_calls] and the function call it gives. *)
Inductive tool_call_item : JsonValue -> JsonValue -> Prop :=
| tool_call_item_intro (tool_call function : dict) (call_id name : str) :
    get tool_call "id" = JStr call_id -> call_id <> "" ->
    get tool_call "function" = JDict function ->
    get function "name" = JStr name -> name <> "" ->
    tool_call_item (JDict tool_call)
      (JDict (function_call call_id name
                (_normalize_tool_call_arguments (get function "arguments")))).

(** The items of one message coerced alone (none when it is rejected). *)
Definition message_items (message : JsonValue) : list JsonValue :=
  match coerce_messages "" [message] with
  | inr result => snd result
  | inl _ => []
  end.

(** Sample entries of [tool_calls] and a sample blank assistant message. *)
Definition lookup_call : JsonValue :=
  JDict [("id", JStr "c1");
         ("function", JDict [("name", JStr "lookup"); ("arguments", JStr "{}")])].

Definition nameless_call : JsonValue :=
  JDict [("id", JStr "c2"); ("function", JDict [("arguments", JStr "{}")])].

Definition blank_assistant : dict :=
  [("role", JStr "assistant"); ("content", JStr "  ")].

(** The tag a part is normalized by: its [type], "default inferred as text
    if a text field is present and no type". *)
Definition effective_tag (part : dict) : JsonValue :=
  if truthy (get part "type") then get part "type"
  else if contains part "text" then JStr "text" else JNull.

Definition tagged (part : dict) (tag : string) : bool :=
  str_is (effective_tag part) tag.

Definition known_tags : list string :=
  ["text"; "input_text"; "image_url"; "input_image"; "input_audio"; "file"].

(** "Accepts either a string URL or an object with url (+ optional
    detail)". *)
Definition image_source (image_url : JsonValue) : option (str * option str) :=
  match image_url with
  | JStr url => Some (url, None)
  | JDict o =>
      match get o "url" with
      | JStr url =>
          Some (url, match get o "detail" with JStr detail => Some detail | _ => None end)
      | _ => None
      end
  | _ => None
  end.

Definition input_image (url : str) (detail : option str) : JsonValue :=
  JDict (("type", JStr "input_image") :: ("image_url", JStr url)
           :: match detail with Some d => [("detail", JStr d)] | None => [] end).

(** "Requires a nested object with string data and string format; builds a
    data: URI (audio/wav for wav, audio/mpeg for mp3, else
    audio/<format>)". *)
Definition audio_payload (input_audio : JsonValue) : option (str * str) :=
  match input_audio with
  | JDict a =>
      match get a "data", get a "format" with
      | JStr data, JStr audio_format => Some (data, audio_format)
      | _, _ => None
      end
  | _ => None
  end.

Definition audio_file (data audio_format : str) : JsonValue :=
  JDict [("type", JStr "input_file");
         ("file_url",
          JStr ("data:audio/" ++ (if audio_format =? "mp3" then "mpeg" else audio_format)
                  ++ ";base64," ++ data))].

(** What becomes of one part of a content array, case by case. *)
Inductive part_outcome : JsonValue -> JsonValue -> Prop :=
| outcome_string (s : str) :
    part_outcome (JStr s) (input_text s)
| outcome_non_object (p : JsonValue) :
    is_str p = false -> is_json_dict p = false -> part_outcome p p
| outcome_text (d : dict) (text : str) :
    tagged d "text" || tagged d "input_text" = true ->
    get d "text" = JStr text ->
    part_outcome (JDict d) (input_text text)
| outcome_text_malformed (d : dict) :
    tagged d "text" || tagged d "input_text" = true ->
    is_str (get d "text") = false ->
    part_outcome (JDict d) (JDict d)
| outcome_image (d : dict) (url : str) (detail : option str) :
    tagged d "image_url" = true ->
    image_source (get d "image_url") = Some (url, detail) ->
    part_outcome (JDict d) (input_image url detail)
| outcome_image_malformed (d : dict) :
    tagged d "image_url" = true ->
    image_source (get d "image_url") = None ->
    part_outcome (JDict d) (JDict d)
| outcome_input_image (d : dict) :
    tagged d "input_image" = true -> part_outcome (JDict d) (JDict d)
| outcome_audio (d : dict) (data audio_format : str) :
    tagged d "input_audio" = true ->
    audio_payload (get d "input_audio") = Some (data, audio_format) ->
    part_outcome (JDict d) (audio_file data audio_format)
| outcome_audio_malformed (d : dict) :
    tagged d "input_audio" = true ->
    audio_payload (get d "input_audio") = None ->
    part_outcome (JDict d) (JDict d)
| outcome_file (d : dict) :
    tagged d "file" = true ->
    part_outcome (JDict d) (JDict (_file_part_to_input_file (get d "file")))
| outcome_unknown (d : dict) :
    existsb (tagged d) known_tags = false -> part_outcome (JDict d) (JDict d).

(** The parts that are passed through without a canonical tag being built:
    "unknown tags, non-object elements, malformed text/image/audio parts". *)
Definition passed_through (part : JsonValue) : bool :=
  match part with
  | JStr _ => false
  | JDict d =>
      negb (existsb (tagged d) known_tags)
      || ((tagged d "text" || tagged d "input_text") && negb (is_str (get d "text")))
      || (tagged d "image_url"
          && match image_source (get d "image_url") with None => true | _ => false end)
      || (tagged d "input_audio"
          && match audio_payload (get d "input_audio") with None => true | _ => false end)
  | _ => true
  end.

Definition part_normalized (p q : JsonValue) : Prop :=
  part_outcome p q
  /\ (canonical_part q = true \/ (q = p /\ passed_through p = true)).

(** A user message whose content array mixes a string, an image given by
    its URL, a part of unknown tag and a number, and the item it gives. *)
Definition mixed_image : JsonValue :=
  JDict [("type", JStr "image_url"); ("image_url", JStr "http://x/y.png")].

Definition mixed_message : dict :=
  [("role", JStr "user");
   ("content", JList [JStr "Hi"; mixed_image; refusal_part; JInt 7])].

Definition mixed_parts : list JsonValue :=
  [input_text "Hi"; input_image "http://x/y.png" None; refusal_part; JInt 7].

Definition mixed_item : dict :=
  [("role", JStr "user"); ("content", JList mixed_parts)].

(** An input in which a message of an unsupported role precedes a tool
    message that carries no call identifier. *)
Definition tool_result_without_id : dict :=
  [("role", JStr "tool"); ("content", JStr "42")].

Definition tool_result_after_unsupported : list JsonValue :=
  [ JDict [("role", JStr "moderator"); ("content", JStr "Hi")];
    JDict tool_result_without_id ].

(* ================================================================= *)
(** ** Lemmas on the Python values *)

Lemma str_truthy_true (s : str) : str_truthy s = true <-> s <> "".
Proof. destruct s; simpl; split; congruence. Qed.

Lemma filter_all_true {A : Type} (f : A -> bool) (l : list A) :
  Forall (fun x => f x = true) l -> filter f l = l.
Proof.
  induction 1 as [|x l Hx _ IH]; simpl; [reflexivity|].
  now rewrite Hx, IH.
Qed.

(** The early return of [_normalize_message_content]: writing back the value
    a key already has changes nothing. *)
Lemma set_get_same (d : dict) (k : string) :
  contains d k = true -> set d k (get d k) = d.
Proof.
  unfold contains, get.
  induction d as [|[k' v] d IH]; simpl; [discriminate|].
  destruct (k' =? k) eqn:E; [reflexivity|].
  intros H. now rewrite IH.
Qed.

(* ================================================================= *)
(** ** The result monad *)

Lemma bind_inr {A B : Type} (m : result A) (k : A -> result B) (b : B) :
  bind m k = inr b -> exists a, m = inr a /\ k a = inr b.
Proof. destruct m as [e|a]; simpl; [discriminate|eauto]. Qed.

(* ================================================================= *)
(** ** The loop of [coerce_messages] *)

Lemma coerce_loop_app (pre post : list JsonValue) (ip : list str) (im : list JsonValue) :
  coerce_loop (pre ++ post)%list ip im =
  (acc <- coerce_loop pre ip im ;; coerce_loop post (fst acc) (snd acc)).
Proof.
  revert ip im; induction pre as [|m pre IH]; intros ip im; simpl; [reflexivity|].
  destruct (coerce_message m ip im) as [e|acc]; simpl; [reflexivity|apply IH].
Qed.

(** One message adds its extracted text, if any, to the instruction parts. *)
Lemma coerce_message_parts (m : JsonValue) (ip ip' : list str) (im im' : list JsonValue) :
  coerce_message m ip im = inr (ip', im') -> ip' = (ip ++ extracted_text m)%list.
Proof.
  unfold coerce_message, extracted_text, is_instruction_message.
  destruct m as [| | | | |l|d]; try discriminate.
  destruct (get d "role") as [| | | |role| |] eqn:Hrole; try discriminate.
  unfold str_is.
  destruct (negb (supported_role role)); [discriminate|].
  destruct ((role =? "system") || (role =? "developer")) eqn:Hsys.
  - intros H. apply bind_inr in H as [_ [_ H]].
    destruct (_content_to_text (get d "content")) as [text|];
      [destruct (str_truthy text)|]; inversion H; subst;
      now rewrite ?app_nil_r.
  - rewrite app_nil_r.
    destruct (role =? "tool").
    { intros H; apply bind_inr in H as [item [_ H]]; now inversion H. }
    destruct (role =? "assistant").
    { intros H; apply bind_inr in H as [item [_ H]]; now inversion H. }
    intros H; now inversion H.
Qed.

Lemma coerce_loop_parts (messages : list JsonValue) :
  forall ip im ip' im',
    coerce_loop messages ip im = inr (ip', im') ->
    ip' = (ip ++ extracted_texts messages)%list.
Proof.
  induction messages as [|m messages IH]; intros ip im ip' im' H; simpl in *.
  - inversion H; now rewrite app_nil_r.
  - apply bind_inr in H as [[ip1 im1] [H1 H2]]; simpl in H2.
    apply coerce_message_parts in H1; apply IH in H2; subst.
    unfold extracted_texts; simpl. now rewrite app_assoc.
Qed.

Lemma extracted_texts_non_empty (messages : list JsonValue) :
  Forall (fun text => str_truthy text = true) (extracted_texts messages).
Proof.
  unfold extracted_texts.
  induction messages as [|m messages IH]; simpl; [constructor|].
  apply Forall_app; split; [|exact IH].
  unfold extracted_text.
  destruct m; try constructor.
  destruct (is_instruction_message _); [|constructor].
  destruct (_content_to_text _) as [text|]; [|constructor].
  destruct (str_truthy text) eqn:E; constructor; [exact E|constructor].
Qed.

Lemma merge_instructions_policy (existing : str) (extra_parts : list str) :
  _merge_instructions existing extra_parts =
  merge_policy existing (join newline (filter str_truthy extra_parts)).
Proof.
  unfold _merge_instructions, merge_policy.
  destruct extra_parts as [|p ps]; [reflexivity|].
  destruct (join newline (filter str_truthy (p :: ps))); simpl; [reflexivity|].
  destruct existing; reflexivity.
Qed.

(* ================================================================= *)
(** ** The scenario *)

(** C1: on the scenario of the specification (a system message, a user
    message, an assistant message with null content and one tool call, and the
    tool's answer, with no existing instructions) [coerce_messages] returns the
    instructions "Be terse." and exactly the three listed items in order; the
    assistant message yields its function call and no message item. *)
Theorem scenario_coercion :
  coerce_messages "" scenario = inr ("Be terse.", scenario_items)
  /\ _normalize_assistant_message_items scenario_assistant = inr [JDict scenario_call].
Proof. split; vm_compute; reflexivity. Qed.

(* ================================================================= *)
(** ** Instructions *)

(** C7: the merged instruction string is the merge policy applied to the
    existing instructions and the newline-join of the non-empty texts of the
    system and developer messages, in input order; [_merge_instructions]
    itself applies that policy to the non-empty parts it is given. *)
Theorem merged_instructions :
  (forall existing extra_parts,
      _merge_instructions existing extra_parts
      = merge_policy existing (join newline (filter str_truthy extra_parts)))
  /\ (forall existing messages instructions items,
        coerce_messages existing messages = inr (instructions, items) ->
        instructions
        = merge_policy existing (join newline (extracted_texts messages))).
Proof.
  split; [exact merge_instructions_policy|].
  intros existing messages instructions items H.
  unfold coerce_messages in H.
  apply bind_inr in H as [[ip im] [Hloop H]]; simpl in H.
  inversion H; subst; clear H.
  apply coerce_loop_parts in Hloop; simpl in Hloop; subst ip.
  rewrite merge_instructions_policy.
  now rewrite (filter_all_true _ _ (extracted_texts_non_empty messages)).
Qed.

Lemma merged_instructions_witness :
  coerce_messages "Be brief." scenario
  = inr ("Be brief." ++ newline ++ "Be terse.", scenario_items)
  /\ "Be brief." ++ newline ++ "Be terse."
     = merge_policy "Be brief." (join newline (extracted_texts scenario)).
Proof.
  split; [vm_compute; reflexivity|].
  apply (proj2 merged_instructions "Be brief." scenario _ scenario_items).
  vm_compute; reflexivity.
Defined.

(** A message that is rejected whatever the accumulators hold makes the whole
    call fail; the failure reported is that of the first rejected message. *)
Lemma coerce_messages_accepted (existing : str) (messages : list JsonValue)
    (r : str * list JsonValue) :
  coerce_messages existing messages = inr r ->
  exists acc, coerce_loop messages [] [] = inr acc.
Proof.
  unfold coerce_messages. intros H.
  apply bind_inr in H as [acc [H _]]. now exists acc.
Qed.

Lemma coerce_messages_rejected_prefix (existing : str) (pre post : list JsonValue)
    (e : ClientPayloadError) :
  coerce_messages existing pre = inl e ->
  coerce_messages existing (pre ++ post)%list = inl e.
Proof.
  unfold coerce_messages. rewrite coerce_loop_app.
  destruct (coerce_loop pre [] []) as [e'|acc]; simpl; [trivial|discriminate].
Qed.

Lemma coerce_messages_rejected_at (existing : str) (pre post : list JsonValue)
    (m : JsonValue) (e : ClientPayloadError) :
  (forall ip im, coerce_message m ip im = inl e) ->
  (exists e', coerce_messages existing (pre ++ m :: post)%list = inl e')
  /\ (forall r, coerce_messages existing pre = inr r ->
        coerce_messages existing (pre ++ m :: post)%list = inl e).
Proof.
  intros Hm. unfold coerce_messages. rewrite coerce_loop_app.
  destruct (coerce_loop pre [] []) as [e'|acc]; simpl.
  - split; [now exists e'|discriminate].
  - rewrite Hm; simpl. split; [now exists e|reflexivity].
Qed.

(* ================================================================= *)
(** ** Tool results *)

Lemma normalize_tool_message_resolved (message : dict) :
  _normalize_tool_message message =
  match resolved_call_id message with
  | Some call_id =>
      inr (function_call_output call_id
             (_normalize_tool_output_value (get message "content")))
  | None => inl tool_call_id_error
  end.
Proof.
  unfold _normalize_tool_message, resolved_call_id, function_call_output.
  destruct (get message "tool_call_id") as [| | | |[|c1 s1]| |];
    destruct (get message "toolCallId") as [| | | |[|c2 s2]| |];
    destruct (get message "call_id") as [| | | |[|c3 s3]| |]; reflexivity.
Qed.

Lemma coerce_tool_message (message : dict) (ip : list str) (im : list JsonValue) :
  get message "role" = JStr "tool" ->
  coerce_message (JDict message) ip im =
  (item <- _normalize_tool_message message ;; ret (ip, (im ++ [JDict item])%list)).
Proof. unfold coerce_message; now intros ->. Qed.

(** C3, as stated, fails: when an earlier message is rejected, the call
    fails with that message's failure, here the unsupported role, and not with
    the missing tool call id of the tool message that follows. *)
Lemma tool_message_other_failure :
  get tool_result_without_id "role" = JStr "tool"
  /\ resolved_call_id tool_result_without_id = None
  /\ exists e,
      coerce_messages "" tool_result_after_unsupported = inl e
      /\ ~ MissingToolCallId e.
Proof.
  split; [reflexivity|]. split; [reflexivity|].
  exists (unsupported_role_error "moderator").
  split; [reflexivity|].
  intros [H|[index H]]; discriminate H.
Qed.

(** C3, amended: a tool message takes its call identifier from
    [tool_call_id], then [toolCallId], then [call_id], the first that is a
    non-empty string: "A" when the three hold "A", "B" and "C", "B" when
    [tool_call_id] is absent; when none resolves the message is rejected with
    the missing tool call id failure, and the whole call fails: with that
    failure when every earlier message is accepted, and with the failure of
    the earlier messages otherwise. *)
Theorem tool_call_id_precedence :
  (forall message,
      _normalize_tool_message message =
      match resolved_call_id message with
      | Some call_id =>
          inr (function_call_output call_id
                 (_normalize_tool_output_value (get message "content")))
      | None => inl tool_call_id_error
      end)
  /\ (forall message,
        get message "tool_call_id" = JStr "A" ->
        get message "toolCallId" = JStr "B" ->
        get message "call_id" = JStr "C" ->
        exists output,
          _normalize_tool_message message = inr (function_call_output "A" output))
  /\ (forall message,
        contains message "tool_call_id" = false ->
        get message "toolCallId" = JStr "B" ->
        get message "call_id" = JStr "C" ->
        exists output,
          _normalize_tool_message message = inr (function_call_output "B" output))
  /\ (forall existing pre post message,
        get message "role" = JStr "tool" ->
        resolved_call_id message = None ->
        MissingToolCallId tool_call_id_error
        /\ coerce_messages existing (JDict message :: post) = inl tool_call_id_error
        /\ (exists e, coerce_messages existing (pre ++ JDict message :: post)%list = inl e)
        /\ (forall r, coerce_messages existing pre = inr r ->
              coerce_messages existing (pre ++ JDict message :: post)%list
              = inl tool_call_id_error)
        /\ (forall e, coerce_messages existing pre = inl e ->
              coerce_messages existing (pre ++ JDict message :: post)%list = inl e)).
Proof.
  split; [exact normalize_tool_message_resolved|].
  split; [|split].
  - intros message HA HB HC. rewrite normalize_tool_message_resolved.
    unfold resolved_call_id. rewrite HA. simpl. eauto.
  - intros message HA HB HC. rewrite normalize_tool_message_resolved.
    unfold resolved_call_id, get in *. unfold contains in HA.
    destruct (lookup message "tool_call_id"); [discriminate|].
    simpl. destruct (lookup message "toolCallId"); [|discriminate].
    subst. simpl. eauto.
  - intros existing pre post message Hrole Hnone.
    assert (Hm : forall ip im, coerce_message (JDict message) ip im = inl tool_call_id_error).
    { intros ip im. rewrite (coerce_tool_message _ _ _ Hrole).
      now rewrite normalize_tool_message_resolved, Hnone. }
    split; [now left|].
    split; [|split; [|split]].
    + apply (proj2 (coerce_messages_rejected_at existing [] post _ _ Hm) (existing, [])).
      reflexivity.
    + apply coerce_messages_rejected_at with (e := tool_call_id_error), Hm.
    + apply coerce_messages_rejected_at, Hm.
    + intros e. apply coerce_messages_rejected_prefix.
Qed.

Lemma tool_call_id_precedence_witness :
  (exists output,
      _normalize_tool_message
        [("role", JStr "tool"); ("tool_call_id", JStr "A"); ("toolCallId", JStr "B");
         ("call_id", JStr "C"); ("content", JStr "done")]
      = inr (function_call_output "A" output))
  /\ (exists output,
        _normalize_tool_message
          [("role", JStr "tool"); ("toolCallId", JStr "B"); ("call_id", JStr "C");
           ("content", JStr "done")]
        = inr (function_call_output "B" output))
  /\ coerce_messages ""
       [JDict [("role", JStr "user"); ("content", JStr "Hi")];
        JDict [("role", JStr "tool"); ("tool_call_id", JStr ""); ("content", JStr "42")]]
     = inl tool_call_id_error
  /\ coerce_messages "" tool_result_after_unsupported
     = inl (unsupported_role_error "moderator").
Proof.
  split; [|split; [|split]].
  - apply (proj1 (proj2 tool_call_id_precedence)); reflexivity.
  - apply (proj1 (proj2 (proj2 tool_call_id_precedence))); reflexivity.
  - apply (proj1 (proj2 (proj2 (proj2 (proj2 (proj2 (proj2 tool_call_id_precedence)) ""
             [JDict [("role", JStr "user"); ("content", JStr "Hi")]] []
             [("role", JStr "tool"); ("tool_call_id", JStr ""); ("content", JStr "42")]
             eq_refl eq_refl)))))
      with (r := ("", [JDict [("role", JStr "user"); ("content", JList [input_text "Hi"])]])).
    reflexivity.
  - apply (proj2 (proj2 (proj2 (proj2 (proj2 (proj2 (proj2 tool_call_id_precedence)) ""
             [JDict [("role", JStr "moderator"); ("content", JStr "Hi")]] []
             tool_result_without_id eq_refl eq_refl)))))
      with (e := unsupported_role_error "moderator").
    reflexivity.
Defined.

(* ================================================================= *)
(** ** The compact encoding *)

Lemma JsonValue_nested_ind (P : JsonValue -> Prop) :
  P JNull -> (forall b, P (JBool b)) -> (forall z, P (JInt z)) ->
  (forall f, P (JFloat f)) -> (forall s, P (JStr s)) ->
  (forall l, Forall P l -> P (JList l)) ->
  (forall d, Forall (fun kv => P (snd kv)) d -> P (JDict d)) ->
  forall v, P v.
Proof.
  intros Hnull Hbool Hint Hfloat Hstr Hlist Hdict.
  fix IH 1.
  intros [|b|z|f|s|l|d];
    [exact Hnull|apply Hbool|apply Hint|apply Hfloat|apply Hstr| |].
  - apply Hlist. induction l as [|x l IHl]; constructor; [apply IH|exact IHl].
  - apply Hdict. induction d as [|kv d IHd]; constructor; [apply IH|exact IHd].
Qed.

Lemma append_assoc (a b c : string) : (a ++ b) ++ c = a ++ (b ++ c).
Proof. induction a as [|x a IH]; simpl; [reflexivity|now rewrite IH]. Qed.

Lemma append_empty_r (a : string) : a ++ "" = a.
Proof. induction a as [|x a IH]; simpl; [reflexivity|now rewrite IH]. Qed.

Lemma transparent_app (state : scan_state) (a b : string) :
  transparent state a -> transparent state b -> transparent state (a ++ b).
Proof. intros Ha Hb rest. now rewrite append_assoc, Ha, Hb. Qed.

Lemma escape_char_transparent (c : ascii) : transparent Inside (escape_char c).
Proof.
  intros rest.
  destruct c as [[] [] [] [] [] [] [] []]; reflexivity.
Qed.

Lemma escape_transparent (s : str) : transparent Inside (escape s).
Proof.
  induction s as [|c s IH]; simpl; [now intros rest|].
  apply transparent_app; [apply escape_char_transparent|exact IH].
Qed.

Lemma encode_basestring_transparent (s : str) :
  transparent Outside (encode_basestring s).
Proof.
  intros rest. unfold encode_basestring.
  rewrite !append_assoc. simpl.
  now rewrite escape_transparent.
Qed.

Lemma uint_transparent (d : Decimal.uint) :
  transparent Outside (NilEmpty.string_of_uint d).
Proof. induction d; intros rest; simpl; auto. Qed.

Lemma str_int_transparent (z : Z) : transparent Outside (str_int z).
Proof.
  intros rest. unfold str_int, NilZero.string_of_int, NilZero.string_of_uint.
  destruct (Z.to_int z) as [d|d]; destruct d; simpl; auto; apply uint_transparent.
Qed.

Lemma spelled_transparent (r : string) :
  float_repr_spelled r = true -> transparent Outside r.
Proof.
  unfold float_repr_spelled.
  induction r as [|c r IH]; simpl; [now intros _ rest|].
  intros H rest. apply andb_prop in H as [Hc Hr].
  specialize (IH Hr rest). simpl.
  repeat (apply orb_prop in Hc as [Hc|Hc];
          [apply Ascii.eqb_eq in Hc; subst c; exact IH|]).
  discriminate.
Qed.

Lemma join_transparent (tokens : list string) :
  Forall (transparent Outside) tokens -> transparent Outside (join "," tokens).
Proof.
  unfold join. induction 1 as [|t tokens Ht Hts IH]; simpl; [now intros rest|].
  destruct tokens as [|t' tokens]; [exact Ht|].
  apply transparent_app; [exact Ht|].
  intros rest. simpl. apply IH.
Qed.

Lemma json_dumps_transparent (v : JsonValue) :
  floats_spelled v = true -> transparent Outside (json_dumps v).
Proof.
  induction v as [|b|z|f|s|l IH|d IH] using JsonValue_nested_ind; intros Hv.
  - now intros rest.
  - destruct b; now intros rest.
  - apply str_int_transparent.
  - destruct f; try (now intros rest). now apply spelled_transparent.
  - apply encode_basestring_transparent.
  - cbn [json_dumps]. intros rest. cbn [floats_spelled] in Hv.
    rewrite !append_assoc. simpl.
    rewrite join_transparent; [reflexivity|].
    rewrite forallb_forall in Hv. rewrite Forall_forall in IH.
    apply Forall_forall. intros t Ht. apply in_map_iff in Ht as [x [<- Hx]].
    auto.
  - cbn [json_dumps]. intros rest. cbn [floats_spelled] in Hv.
    rewrite !append_assoc. simpl.
    rewrite join_transparent; [reflexivity|].
    rewrite forallb_forall in Hv. rewrite Forall_forall in IH.
    apply Forall_forall. intros t Ht. apply in_map_iff in Ht as [x [<- Hx]].
    apply (transparent_app Outside (encode_basestring (fst x)));
      [apply encode_basestring_transparent|].
    apply (transparent_app Outside ":"); [now intros rest'|auto].
Qed.

Lemma json_dumps_compact (v : JsonValue) :
  floats_spelled v = true -> blank_outside_strings Outside (json_dumps v) = false.
Proof.
  intros Hv. rewrite <- (append_empty_r (json_dumps v)).
  now rewrite json_dumps_transparent.
Qed.

(* ================================================================= *)
(** ** Assistant tool calls *)

Lemma normalize_tool_call_arguments_encoding (arguments : JsonValue) :
  arguments_encoding arguments (_normalize_tool_call_arguments arguments).
Proof. destruct arguments as [|[]| | | | |]; constructor. Qed.

(** C4: for a tool call with a non-empty [id] and a [function] object with a
    non-empty [name], the [arguments] of the emitted function call are "{}"
    for null, the string itself for a string, the JSON encoding for an object
    or an array, and the string form of any other scalar; the encoding of an
    object or an array is compact, with no blank outside its string literals
    ([{"x": 1}] gives [{"x":1}]). *)
Theorem tool_call_arguments_encoding :
  (forall tool_call index call_id function name,
      get tool_call "id" = JStr call_id -> call_id <> "" ->
      get tool_call "function" = JDict function ->
      get function "name" = JStr name -> name <> "" ->
      exists arguments,
        _normalize_assistant_tool_call tool_call index
        = inr (function_call call_id name arguments)
        /\ arguments_encoding (get function "arguments") arguments)
  /\ (forall arguments,
        is_json_dict arguments || is_json_list arguments = true ->
        floats_spelled arguments = true ->
        _normalize_tool_call_arguments arguments = json_dumps arguments
        /\ blank_outside_strings Outside (_normalize_tool_call_arguments arguments)
           = false)
  /\ _normalize_tool_call_arguments (JDict [("x", JInt 1)])
     = "{" ++ dquote ++ "x" ++ dquote ++ ":1}"
  /\ _normalize_tool_call_arguments (JList [JInt 1; JStr "a b"; JNull])
     = "[1," ++ dquote ++ "a b" ++ dquote ++ ",null]"
  /\ _normalize_tool_call_arguments JNull = "{}"
  /\ _normalize_tool_call_arguments (JStr "raw") = "raw"
  /\ _normalize_tool_call_arguments (JInt (-7)) = "-7".
Proof.
  split; [|split; [|repeat split; vm_compute; reflexivity]].
  2: { intros arguments Hshape Hfloats.
       assert (H : _normalize_tool_call_arguments arguments = json_dumps arguments)
         by (destruct arguments; try discriminate; reflexivity).
       split; [exact H|]. rewrite H. now apply json_dumps_compact. }
  intros tool_call index call_id function name Hid Hne Hfun Hname Hnne.
  exists (_normalize_tool_call_arguments (get function "arguments")).
  split; [|apply normalize_tool_call_arguments_encoding].
  unfold _normalize_assistant_tool_call.
  rewrite Hid, Hfun, Hname; simpl.
  apply str_truthy_true in Hne, Hnne. now rewrite Hne, Hnne.
Qed.

Lemma tool_call_arguments_encoding_witness :
  (exists arguments,
      _normalize_assistant_tool_call
        [("id", JStr "c1");
         ("function",
          JDict [("name", JStr "lookup"); ("arguments", JDict [("x", JInt 1)])])]
        0
      = inr (function_call "c1" "lookup" arguments)
      /\ arguments_encoding (JDict [("x", JInt 1)]) arguments)
  /\ (_normalize_tool_call_arguments
        (JList [JStr "a b"; JFloat (FFinite "1.5e-07"); JDict [("x", JInt 1)]])
      = json_dumps (JList [JStr "a b"; JFloat (FFinite "1.5e-07"); JDict [("x", JInt 1)]])
      /\ blank_outside_strings Outside
           (_normalize_tool_call_arguments
              (JList [JStr "a b"; JFloat (FFinite "1.5e-07"); JDict [("x", JInt 1)]]))
         = false).
Proof.
  split;
    [|apply (proj1 (proj2 tool_call_arguments_encoding)
               (JList [JStr "a b"; JFloat (FFinite "1.5e-07"); JDict [("x", JInt 1)]]));
      reflexivity].
  apply (proj1 tool_call_arguments_encoding
           [("id", JStr "c1");
            ("function",
             JDict [("name", JStr "lookup"); ("arguments", JDict [("x", JInt 1)])])]
           0 "c1" [("name", JStr "lookup"); ("arguments", JDict [("x", JInt 1)])]
           "lookup");
    first [reflexivity | discriminate].
Defined.

Lemma coerce_assistant_message (message : dict) (ip : list str) (im : list JsonValue) :
  get message "role" = JStr "assistant" ->
  coerce_message (JDict message) ip im =
  (items <- _normalize_assistant_message_items message ;;
   ret (ip, (im ++ items)%list)).
Proof. unfold coerce_message; now intros ->. Qed.

Lemma malformed_tool_calls_rejected (message : dict) :
  get message "tool_calls" = malformed_tool_calls ->
  _normalize_assistant_message_items message = inl (tool_call_missing_id_error 0).
Proof. unfold _normalize_assistant_message_items; now intros ->. Qed.

Lemma unsupported_role_not_missing_id (role : str) :
  ~ MissingToolCallId (unsupported_role_error role).
Proof. intros [H|[index H]]; discriminate H. Qed.

(** C6, as stated, fails: when an earlier message is rejected, the call
    fails with that message's failure, here the unsupported role. *)
Lemma malformed_tool_call_other_failure :
  exists e,
    coerce_messages "" malformed_after_unsupported = inl e /\ ~ MissingToolCallId e.
Proof.
  exists (unsupported_role_error "moderator").
  split; [reflexivity|apply unsupported_role_not_missing_id].
Qed.

(** C6, amended: an input that contains an assistant message with
    [tool_calls = [{id: "", function: {name: "f"}}]] makes the whole call fail
    and return no pair; the failure is the missing tool call id of
    [tool_calls[0]] when the messages before it are accepted, and the failure
    of those messages otherwise. *)
Theorem malformed_tool_call_rejects_call :
  forall existing pre post message,
    get message "role" = JStr "assistant" ->
    get message "tool_calls" = malformed_tool_calls ->
    let input := (pre ++ JDict message :: post)%list in
    MissingToolCallId (tool_call_missing_id_error 0)
    /\ (exists e, coerce_messages existing input = inl e)
    /\ (forall r, coerce_messages existing pre = inr r ->
          coerce_messages existing input = inl (tool_call_missing_id_error 0))
    /\ (forall e, coerce_messages existing pre = inl e ->
          coerce_messages existing input = inl e).
Proof.
  intros existing pre post message Hrole Hcalls input.
  assert (Hm : forall ip im,
             coerce_message (JDict message) ip im = inl (tool_call_missing_id_error 0)).
  { intros ip im. rewrite (coerce_assistant_message _ _ _ Hrole).
    now rewrite (malformed_tool_calls_rejected _ Hcalls). }
  split; [right; now exists 0|].
  split; [|split].
  - apply coerce_messages_rejected_at with (e := tool_call_missing_id_error 0), Hm.
  - apply coerce_messages_rejected_at, Hm.
  - intros e. apply coerce_messages_rejected_prefix.
Qed.

Lemma malformed_tool_call_rejects_call_witness :
  (coerce_messages "" (firstn 2 scenario) = inr ("Be terse.", firstn 1 scenario_items)
   /\ coerce_messages ""
        (firstn 2 scenario
           ++ JDict [("role", JStr "assistant"); ("content", JStr "calling");
                     ("tool_calls", malformed_tool_calls)]
           :: skipn 3 scenario)%list
      = inl (tool_call_missing_id_error 0))
  /\ (coerce_messages "" [JInt 7] = inl not_an_object_error
      /\ coerce_messages ""
           ([JInt 7]
              ++ JDict [("role", JStr "assistant"); ("tool_calls", malformed_tool_calls)]
              :: [])%list
         = inl not_an_object_error).
Proof.
  split; (split; [reflexivity|]).
  - apply (proj1 (proj2 (proj2
             (malformed_tool_call_rejects_call "" (firstn 2 scenario) (skipn 3 scenario)
                [("role", JStr "assistant"); ("content", JStr "calling");
                 ("tool_calls", malformed_tool_calls)]
                eq_refl eq_refl)))
             ("Be terse.", firstn 1 scenario_items)).
    reflexivity.
  - apply (proj2 (proj2 (proj2
             (malformed_tool_call_rejects_call "" [JInt 7] []
                [("role", JStr "assistant"); ("tool_calls", malformed_tool_calls)]
                eq_refl eq_refl)))
             not_an_object_error).
    reflexivity.
Defined.

(* ================================================================= *)
(** ** Content parts *)

Lemma lookup_get (d : dict) (k : string) (v : JsonValue) :
  lookup d k = Some v -> get d k = v /\ contains d k = true.
Proof. unfold get, contains; now intros ->. Qed.

Lemma get_contains (d : dict) (k : string) :
  get d k <> JNull -> contains d k = true.
Proof.
  unfold get, contains. destruct (lookup d k); [reflexivity|congruence].
Qed.

(** C9: a content part whose [type] is falsy (the empty string, [false], or
    any other falsy value, and not only an absent key) and whose [text] is a
    string is classified as text and becomes [{type: input_text, text}]. *)
Theorem falsy_type_defaults_to_text :
  (forall part type text,
      lookup part "type" = Some type -> truthy type = false ->
      get part "text" = JStr text ->
      _normalize_content_part part = input_text text
      /\ _normalize_content_parts (JList [JDict part]) = JList [input_text text])
  /\ (forall text,
        _normalize_content_part [("type", JStr ""); ("text", JStr text)] = input_text text
        /\ _normalize_content_part [("type", JBool false); ("text", JStr text)]
           = input_text text
        /\ _normalize_content_part [("text", JStr text)] = input_text text).
Proof.
  split; [|intros text; repeat split; reflexivity].
  intros part type text Htype Hfalsy Htext.
  assert (H : _normalize_content_part part = input_text text).
  { unfold _normalize_content_part.
    apply lookup_get in Htype as [Htype _]. rewrite Htype, Hfalsy.
    rewrite (get_contains part "text") by (rewrite Htext; discriminate).
    simpl. now rewrite Htext. }
  split; [exact H|]. simpl. now rewrite H.
Qed.

Lemma falsy_type_defaults_to_text_witness :
  _normalize_content_part [("type", JInt 0); ("text", JStr "hello")] = input_text "hello"
  /\ _normalize_content_parts (JList [JDict [("type", JInt 0); ("text", JStr "hello")]])
     = JList [input_text "hello"].
Proof.
  apply (proj1 falsy_type_defaults_to_text
           [("type", JInt 0); ("text", JStr "hello")] (JInt 0) "hello");
    reflexivity.
Defined.

(* ================================================================= *)
(** ** Assistant content *)

Lemma has_non_empty_part_null_text (part : dict) (parts : list JsonValue) :
  part <> [] -> get part "text" = JNull -> In (JDict part) parts ->
  has_non_empty_part parts = true.
Proof.
  intros Hne Htext.
  induction parts as [|p parts IH]; simpl; [contradiction|].
  intros [->|Hin].
  - rewrite Htext. simpl. destruct part; [congruence|reflexivity].
  - destruct p as [| | | |s| |d]; try reflexivity.
    + destruct (str_truthy (strip s)); [reflexivity|auto].
    + destruct (match get d "text" with JStr t => str_truthy (strip t) | _ => false end);
        [reflexivity|].
      destruct (is_none (get d "text") && _); [reflexivity|auto].
Qed.

(** C10: in the non-empty-content check an array element that is a
    non-empty object whose [text] is null counts as non-empty, exactly as one
    with no [text] key does; so an assistant message with content
    [[{"text": null}]] emits its message item. *)
Theorem null_text_part_is_non_empty :
  (forall part parts,
      part <> [] -> In (JDict part) parts ->
      (lookup part "text" = Some JNull -> _has_non_empty_content (JList parts) = true)
      /\ (lookup part "text" = None -> _has_non_empty_content (JList parts) = true))
  /\ (forall message,
        get message "content" = JList [JDict [("text", JNull)]] ->
        _normalize_assistant_message_items message =
        match get message "tool_calls" with
        | JList tool_calls =>
            calls <- normalize_tool_calls tool_calls 0 ;;
            ret (JDict message :: calls)%list
        | _ => ret [JDict message]
        end)
  /\ coerce_messages ""
       [JDict [("role", JStr "assistant"); ("content", JList [JDict [("text", JNull)]])]]
     = inr ("",
            [JDict [("role", JStr "assistant");
                    ("content", JList [JDict [("text", JNull)]])]]).
Proof.
  split; [|split; [|reflexivity]].
  - intros part parts Hne Hin. split; intros Htext; simpl;
      apply (has_non_empty_part_null_text part parts Hne); trivial;
      unfold get; now rewrite Htext.
  - intros message Hcontent.
    assert (Hsame : _normalize_message_content message = message).
    { unfold _normalize_message_content. rewrite Hcontent.
      change (set message "content" (JList [JDict [("text", JNull)]]) = message).
      rewrite <- Hcontent. apply set_get_same, get_contains.
      rewrite Hcontent; discriminate. }
    unfold _normalize_assistant_message_items.
    rewrite Hsame, Hcontent.
    change (_has_non_empty_content (JList [JDict [("text", JNull)]])) with true.
    cbv iota.
    destruct (get message "tool_calls"); reflexivity.
Qed.

Lemma null_text_part_is_non_empty_witness :
  _has_non_empty_content (JList [JStr " "; JDict [("text", JNull)]]) = true
  /\ _has_non_empty_content (JList [JStr " "; JDict [("kind", JStr "x")]]) = true
  /\ _normalize_assistant_message_items
       [("role", JStr "assistant"); ("content", JList [JDict [("text", JNull)]])]
     = inr [JDict [("role", JStr "assistant");
                   ("content", JList [JDict [("text", JNull)]])]].
Proof.
  split; [|split].
  - apply (proj1 (proj1 null_text_part_is_non_empty
                    [("text", JNull)] [JStr " "; JDict [("text", JNull)]]
                    ltac:(discriminate) ltac:(right; left; reflexivity))).
    reflexivity.
  - apply (proj2 (proj1 null_text_part_is_non_empty
                    [("kind", JStr "x")] [JStr " "; JDict [("kind", JStr "x")]]
                    ltac:(discriminate) ltac:(right; left; reflexivity))).
    reflexivity.
  - apply (proj1 (proj2 null_text_part_is_non_empty)
             [("role", JStr "assistant"); ("content", JList [JDict [("text", JNull)]])]).
    reflexivity.
Defined.

(* ================================================================= *)
(** ** The content-part normalizer *)

Lemma file_part_built (file_info : JsonValue) :
  built_part (_file_part_to_input_file file_info).
Proof.
  unfold _file_part_to_input_file.
  destruct file_info as [| | | | | |info]; try constructor.
  destruct (get info "file_id") as [| | | |[|c s]| |] eqn:Hid; simpl;
    try constructor;
    (destruct (get info "file_url") as [| | | |[|c' s']| |] eqn:Hurl; simpl;
     try constructor;
     destruct (get info "file_data"); try constructor;
     destruct (get info "data"); constructor).
Qed.

(** A content part comes out unchanged or as one of the built parts. *)
Lemma normalize_content_part_result (part : dict) :
  exists part',
    _normalize_content_part part = JDict part' /\ (part' = part \/ built_part part').
Proof.
  unfold _normalize_content_part.
  set (part_type := if truthy (get part "type") then get part "type"
                    else if contains part "text" then JStr "text" else JNull).
  destruct (str_is part_type "text" || str_is part_type "input_text").
  { destruct (get part "text"); eexists; split; try reflexivity; auto.
    right; constructor. }
  destruct (str_is part_type "image_url").
  { destruct (get part "image_url") as [| | | |url| |image_url]; simpl;
      try (eexists; split; [reflexivity|auto; fail]).
    - eexists; split; [reflexivity|right; constructor].
    - destruct (get image_url "url"); simpl;
        try (eexists; split; [reflexivity|auto; fail]).
      destruct (get image_url "detail"); simpl;
        eexists; split; try reflexivity; right; constructor. }
  destruct (str_is part_type "input_image").
  { eexists; split; [reflexivity|auto]. }
  destruct (str_is part_type "input_audio").
  { destruct (_audio_input_to_data_url (get part "input_audio")) as [data_url|];
      [destruct (str_truthy data_url)|];
      eexists; split; try reflexivity; auto.
    right; constructor. }
  destruct (str_is part_type "file").
  { eexists; split; [reflexivity|right; apply file_part_built]. }
  eexists; split; [reflexivity|auto].
Qed.

Lemma built_part_fixed (part : dict) :
  built_part part -> _normalize_content_part part = JDict part.
Proof. destruct 1; reflexivity. Qed.

Lemma built_part_canonical (part : dict) :
  built_part part -> canonical_part (JDict part) = true.
Proof. destruct 1; reflexivity. Qed.

Lemma normalize_content_part_idempotent (part part' : dict) :
  _normalize_content_part part = JDict part' ->
  _normalize_content_part part' = JDict part'.
Proof.
  intros H.
  destruct (normalize_content_part_result part) as [p [Hp [->|Hbuilt]]];
    rewrite Hp in H; inversion H; subst.
  - exact Hp.
  - now apply built_part_fixed.
Qed.

Lemma normalize_part_idempotent (part : JsonValue) :
  normalize_part (normalize_part part) = normalize_part part.
Proof.
  destruct part as [| | | |s| |d]; try reflexivity.
  simpl. destruct (normalize_content_part_result d) as [d' [Hd' _]].
  rewrite Hd'. simpl. now apply normalize_content_part_idempotent with d.
Qed.

(** A part comes out unchanged or with a canonical tag. *)
Lemma normalize_part_result (part : JsonValue) :
  normalize_part part = part \/ canonical_part (normalize_part part) = true.
Proof.
  destruct part as [| | | |s| |d]; auto.
  simpl. destruct (normalize_content_part_result d) as [d' [Hd' [->|Hbuilt]]];
    rewrite Hd'; [now left|right; now apply built_part_canonical].
Qed.

(** C8: the content-part normalizer is idempotent: applied to its own
    output it returns that output. *)
Theorem normalize_content_parts_idempotent :
  forall content,
    _normalize_content_parts (_normalize_content_parts content)
    = _normalize_content_parts content.
Proof.
  intros [| | | |s|parts|d]; try reflexivity.
  - simpl. f_equal. rewrite map_map.
    apply map_ext. intros part. apply normalize_part_idempotent.
  - simpl. destruct (normalize_content_part_result d) as [d' [Hd' _]].
    rewrite Hd'. simpl. now apply normalize_content_part_idempotent with d.
Qed.

(* ================================================================= *)
(** ** Emitted message items *)

Lemma get_set_same (d : dict) (k : string) (v : JsonValue) :
  get (set d k v) k = v.
Proof.
  unfold get. induction d as [|[k' v'] d IH]; simpl.
  - now rewrite String.eqb_refl.
  - destruct (k' =? k) eqn:E; simpl; rewrite E; [reflexivity|exact IH].
Qed.

Lemma get_set_other (d : dict) (k k' : string) (v : JsonValue) :
  k' <> k -> get (set d k v) k' = get d k'.
Proof.
  intros Hne. unfold get. induction d as [|[k0 v0] d IH]; simpl.
  - apply String.eqb_neq in Hne. rewrite String.eqb_sym in Hne. now rewrite Hne.
  - destruct (k0 =? k) eqn:E; simpl.
    + apply String.eqb_eq in E; subst k0.
      apply String.eqb_neq in Hne. rewrite String.eqb_sym in Hne. now rewrite Hne.
    + destruct (k0 =? k'); [reflexivity|exact IH].
Qed.

Lemma normalize_message_content_role (message : dict) :
  get (_normalize_message_content message) "role" = get message "role".
Proof.
  unfold _normalize_message_content.
  destruct (get message "content"); try reflexivity;
    now apply get_set_other.
Qed.

Lemma normalize_message_content_content (message : dict) :
  get (_normalize_message_content message) "content"
  = _normalize_content_parts (get message "content").
Proof.
  unfold _normalize_message_content.
  destruct (get message "content") eqn:E; try apply get_set_same.
  exact E.
Qed.

Lemma normalize_parts_related (raw : list JsonValue) :
  Forall2 (fun p q => q = p \/ canonical_part q = true) raw (map normalize_part raw).
Proof.
  induction raw as [|p raw IH]; simpl; constructor; [|exact IH].
  apply normalize_part_result.
Qed.

(** The content of an emitted message is an array only when the message
    held a string or an array. *)
Lemma normalize_content_parts_array (content : JsonValue) (parts : list JsonValue) :
  _normalize_content_parts content = JList parts ->
  (exists text, content = JStr text /\ parts = [input_text text])
  \/ (exists raw, content = JList raw
        /\ Forall2 (fun p q => q = p \/ canonical_part q = true) raw parts).
Proof.
  destruct content as [| | | |s|raw|d]; simpl; try discriminate.
  - intros H; inversion H; left; now exists s.
  - intros H; inversion H; right; exists raw; split;
      [reflexivity|apply normalize_parts_related].
  - destruct (normalize_content_part_result d) as [d' [Hd' _]].
    rewrite Hd'. discriminate.
Qed.

Lemma normalize_tool_calls_items (tool_calls : list JsonValue) :
  forall index calls item,
    normalize_tool_calls tool_calls index = inr calls ->
    In (JDict item) calls -> is_message_item item = false.
Proof.
  induction tool_calls as [|tc tool_calls IH]; intros index calls item H Hin; simpl in H.
  - inversion H; subst; contradiction.
  - destruct tc as [| | | | | |tool_call]; try discriminate.
    apply bind_inr in H as [call [Hcall H]].
    apply bind_inr in H as [rest [Hrest H]].
    inversion H; subst; clear H.
    destruct Hin as [Heq|Hin]; [|now apply (IH _ _ _ Hrest)].
    inversion Heq; subst; clear Heq.
    unfold _normalize_assistant_tool_call in Hcall.
    destruct (negb (nonempty_str (get tool_call "id"))); [discriminate|].
    destruct (get tool_call "function") as [| | | | | |function]; try discriminate.
    destruct (negb (nonempty_str (get function "name"))); [discriminate|].
    inversion Hcall; reflexivity.
Qed.

(** What one message adds to the items: a tool result, or the normalized
    message, or, for an assistant, the normalized message (when its content is
    non-empty) followed by its function calls. *)
Lemma coerce_message_items (m : JsonValue) (ip ip' : list str) (im im' : list JsonValue) :
  coerce_message m ip im = inr (ip', im') ->
  exists new,
    im' = (im ++ new)%list
    /\ forall item, In (JDict item) new -> is_message_item item = true ->
         exists message, m = JDict message /\ item = _normalize_message_content message.
Proof.
  unfold coerce_message.
  destruct m as [| | | | | |message]; try discriminate.
  destruct (get message "role") as [| | | |role| |] eqn:Hrole; try discriminate.
  destruct (negb (supported_role role)); [discriminate|].
  destruct ((role =? "system") || (role =? "developer")).
  { intros H. apply bind_inr in H as [_ [_ H]]. exists [].
    split; [|contradiction].
    destruct (_content_to_text _) as [text|]; [destruct (str_truthy text)|];
      inversion H; now rewrite app_nil_r. }
  destruct (role =? "tool").
  { intros H. apply bind_inr in H as [item [Hitem H]]. inversion H; subst.
    exists [JDict item]. split; [reflexivity|].
    intros item' [Heq|[]] Hmsg. inversion Heq; subst item'.
    rewrite normalize_tool_message_resolved in Hitem.
    destruct (resolved_call_id message); inversion Hitem; subst; discriminate Hmsg. }
  destruct (role =? "assistant").
  { intros H. apply bind_inr in H as [items [Hitems H]]. inversion H; subst.
    exists items. split; [reflexivity|].
    intros item Hin Hmsg. exists message. split; [reflexivity|].
    unfold _normalize_assistant_message_items in Hitems.
    assert (Hcalls : forall calls,
               (exists index tcs, normalize_tool_calls tcs index = inr calls) ->
               In (JDict item) calls -> False).
    { intros calls [index [tcs Htcs]] Hc.
      rewrite (normalize_tool_calls_items _ _ _ _ Htcs Hc) in Hmsg. discriminate. }
    destruct (get message "tool_calls") as [| | | | |tcs|].
    6: { apply bind_inr in Hitems as [calls [Htcs Hitems]].
         inversion Hitems; subst; clear Hitems.
         apply in_app_or in Hin as [Hin|Hin]; [|exfalso; eapply Hcalls; eauto].
         destruct (_has_non_empty_content _); [|contradiction].
         destruct Hin as [Heq|[]]; now inversion Heq. }
    all: inversion Hitems; subst; clear Hitems;
      destruct (_has_non_empty_content _); [|contradiction];
      destruct Hin as [Heq|[]]; now inversion Heq. }
  intros H. inversion H; subst.
  eexists; split; [reflexivity|].
  intros item [Heq|[]] _. inversion Heq. now exists message.
Qed.

Lemma coerce_loop_items (messages : list JsonValue) :
  forall ip im ip' im',
    coerce_loop messages ip im = inr (ip', im') ->
    exists new,
      im' = (im ++ new)%list
      /\ forall item, In (JDict item) new -> is_message_item item = true ->
           exists message,
             In (JDict message) messages /\ item = _normalize_message_content message.
Proof.
  induction messages as [|m messages IH]; intros ip im ip' im' H; simpl in H.
  - inversion H; subst. exists []. split; [now rewrite app_nil_r|contradiction].
  - apply bind_inr in H as [[ip1 im1] [H1 H2]]; simpl in H2.
    apply coerce_message_items in H1 as [new1 [-> Hnew1]].
    apply IH in H2 as [new2 [-> Hnew2]].
    exists (new1 ++ new2)%list. split; [now rewrite app_assoc|].
    intros item Hin Hmsg. apply in_app_or in Hin as [Hin|Hin].
    + destruct (Hnew1 item Hin Hmsg) as [message [-> Hitem]].
      exists message. split; [now left|exact Hitem].
    + destruct (Hnew2 item Hin Hmsg) as [message [Hmem Hitem]].
      exists message. split; [now right|exact Hitem].
Qed.

(** The items only grow. *)
Lemma coerce_message_keeps (m : JsonValue) (ip ip' : list str) (im im' : list JsonValue) :
  coerce_message m ip im = inr (ip', im') -> forall x, In x im -> In x im'.
Proof.
  intros H x Hx. apply coerce_message_items in H as [new [-> _]].
  apply in_or_app; now left.
Qed.

Lemma coerce_loop_keeps (messages : list JsonValue) :
  forall ip im ip' im',
    coerce_loop messages ip im = inr (ip', im') -> forall x, In x im -> In x im'.
Proof.
  intros ip im ip' im' H x Hx. apply coerce_loop_items in H as [new [-> _]].
  apply in_or_app; now left.
Qed.

(** A user message, and an assistant message of non-empty content, is
    emitted with its content normalized. *)
Lemma coerce_message_emits (message : dict) (ip ip' : list str) (im im' : list JsonValue) :
  coerce_message (JDict message) ip im = inr (ip', im') ->
  get message "role" = JStr "user"
  \/ (get message "role" = JStr "assistant"
      /\ _has_non_empty_content (get (_normalize_message_content message) "content")
         = true) ->
  In (JDict (_normalize_message_content message)) im'.
Proof.
  unfold coerce_message. intros H [Hrole|[Hrole Hne]]; rewrite Hrole in H; simpl in H.
  - inversion H; subst. apply in_or_app; right; now left.
  - apply bind_inr in H as [items [Hitems H]]. inversion H; subst; clear H.
    apply in_or_app; right.
    unfold _normalize_assistant_message_items in Hitems. rewrite Hne in Hitems.
    destruct (get message "tool_calls");
      try (inversion Hitems; now left).
    apply bind_inr in Hitems as [calls [_ Hitems]]. inversion Hitems. now left.
Qed.

Lemma coerce_loop_emits (messages : list JsonValue) (message : dict) :
  In (JDict message) messages ->
  get message "role" = JStr "user"
  \/ (get message "role" = JStr "assistant"
      /\ _has_non_empty_content (get (_normalize_message_content message) "content")
         = true) ->
  forall ip im ip' im',
    coerce_loop messages ip im = inr (ip', im') ->
    In (JDict (_normalize_message_content message)) im'.
Proof.
  intros Hin Hrole.
  induction messages as [|m messages IH]; [contradiction|].
  intros ip im ip' im' H; simpl in H.
  apply bind_inr in H as [[ip1 im1] [H1 H2]]; simpl in H2.
  destruct Hin as [->|Hin].
  - apply (coerce_loop_keeps _ _ _ _ _ H2).
    now apply (coerce_message_emits _ _ _ _ _ H1).
  - now apply (IH Hin _ _ _ _ H2).
Qed.

Lemma tagged_type (d : dict) (tag : string) :
  tagged d tag = true -> tag <> "text" -> str_is (get d "type") tag = true.
Proof.
  unfold tagged, effective_tag. intros H Hne.
  destruct (truthy (get d "type")); [exact H|].
  destruct (contains d "text"); [|discriminate].
  unfold str_is in H. apply String.eqb_eq in H. congruence.
Qed.

Lemma normalize_content_part_outcome (d : dict) :
  part_normalized (JDict d) (_normalize_content_part d).
Proof.
  unfold part_normalized, _normalize_content_part, passed_through.
  fold (effective_tag d).
  change (str_is (effective_tag d) "text") with (tagged d "text").
  change (str_is (effective_tag d) "input_text") with (tagged d "input_text").
  change (str_is (effective_tag d) "image_url") with (tagged d "image_url").
  change (str_is (effective_tag d) "input_image") with (tagged d "input_image").
  change (str_is (effective_tag d) "input_audio") with (tagged d "input_audio").
  change (str_is (effective_tag d) "file") with (tagged d "file").
  cbn [existsb known_tags].
  destruct (tagged d "text" || tagged d "input_text") eqn:Htext.
  { assert (Hk : tagged d "text" || (tagged d "input_text" || (tagged d "image_url"
                   || (tagged d "input_image" || (tagged d "input_audio"
                   || (tagged d "file" || false))))) = true).
    { apply orb_true_iff in Htext as [H|H]; rewrite H; auto using orb_true_r. }
    rewrite Hk. destruct (get d "text") eqn:Ht;
      try (split; [apply outcome_text_malformed; [exact Htext|now rewrite Ht]|];
           right; split; [reflexivity|]; cbn; now rewrite ?orb_true_r).
    split; [now apply outcome_text|left; reflexivity]. }
  apply orb_false_iff in Htext as [Ht1 Ht2]. rewrite Ht1, Ht2. cbn [orb andb negb].
  destruct (tagged d "image_url") eqn:Himg.
  { cbn [orb andb negb].
    destruct (get d "image_url") as [| | | |url| |o] eqn:Hu; cbn [fst snd];
      try (split; [apply outcome_image_malformed; [exact Himg|now rewrite Hu]|];
           right; split; [reflexivity|]; cbn; now rewrite ?orb_true_r).
    - split; [|left; reflexivity].
      apply (outcome_image d url None); [exact Himg|now rewrite Hu].
    - destruct (get o "url") as [| | | |url| |] eqn:Hurl;
        try (split; [apply outcome_image_malformed;
                     [exact Himg|rewrite Hu; cbn; now rewrite Hurl]|];
             right; split; [reflexivity|]; cbn; rewrite Hurl; now rewrite ?orb_true_r).
      split; [|left; destruct (get o "detail"); reflexivity].
      destruct (get o "detail") as [| | | |detail| |] eqn:Hd;
        [apply (outcome_image d url None)| apply (outcome_image d url None)
        |apply (outcome_image d url None)|apply (outcome_image d url None)
        |apply (outcome_image d url (Some detail))
        |apply (outcome_image d url None)|apply (outcome_image d url None)];
        try exact Himg; rewrite Hu; cbn; now rewrite Hurl, Hd. }
  cbn [orb andb negb].
  destruct (tagged d "input_image") eqn:Hin.
  { split; [now apply outcome_input_image|]. left.
    apply tagged_type in Hin; [|discriminate]. cbn. now rewrite Hin, ?orb_true_r. }
  cbn [orb andb negb].
  destruct (tagged d "input_audio") eqn:Haud.
  { cbn [orb andb negb]. unfold _audio_input_to_data_url.
    destruct (get d "input_audio") as [| | | | | |a] eqn:Ha;
      try (split; [apply outcome_audio_malformed; [exact Haud|now rewrite Ha]|];
           right; split; [reflexivity|]; cbn; now rewrite ?orb_true_r).
    destruct (get a "data") as [| | | |data| |] eqn:Hdata;
      try (split; [apply outcome_audio_malformed;
                   [exact Haud|rewrite Ha; cbn; now rewrite Hdata]|];
           right; split; [reflexivity|]; cbn; rewrite Hdata; now rewrite ?orb_true_r).
    destruct (get a "format") as [| | | |fmt| |] eqn:Hfmt;
      try (split; [apply outcome_audio_malformed;
                   [exact Haud|rewrite Ha; cbn; now rewrite Hdata, Hfmt]|];
           right; split; [reflexivity|]; cbn; rewrite Hdata, Hfmt;
           now rewrite ?orb_true_r).
    assert (Hmime : _audio_mime_type fmt
                    = "audio/" ++ (if fmt =? "mp3" then "mpeg" else fmt)).
    { unfold _audio_mime_type. destruct (fmt =? "wav") eqn:Hwav.
      - apply String.eqb_eq in Hwav; subst; reflexivity.
      - destruct (fmt =? "mp3"); reflexivity. }
    rewrite Hmime. cbn [append str_truthy].
    split; [|left; reflexivity].
    apply (outcome_audio d data fmt); [exact Haud|].
    rewrite Ha; cbn; now rewrite Hdata, Hfmt. }
  cbn [orb andb negb].
  destruct (tagged d "file") eqn:Hfile.
  { split; [now apply outcome_file|]. left.
    apply built_part_canonical, file_part_built. }
  split.
  - apply outcome_unknown. cbn [existsb known_tags].
    now rewrite Ht1, Ht2, Himg, Hin, Haud, Hfile.
  - right. split; reflexivity.
Qed.

Lemma normalize_part_outcome (p : JsonValue) :
  part_normalized p (normalize_part p).
Proof.
  destruct p as [| | | |s| |d];
    try (split; [now apply outcome_non_object|right; split; reflexivity]).
  - split; [apply outcome_string|left; reflexivity].
  - apply normalize_content_part_outcome.
Qed.

Lemma tagged_exclusive (d : dict) (a b : string) :
  tagged d a = true -> a <> b -> tagged d b = false.
Proof.
  unfold tagged, str_is. destruct (effective_tag d); try discriminate.
  intros Ha Hne. apply String.eqb_eq in Ha; subst. now apply String.eqb_neq.
Qed.

Lemma part_outcome_normalize (p q : JsonValue) :
  part_outcome p q -> q = normalize_part p.
Proof.
  assert (Hfold : forall d,
             _normalize_content_part d =
             if tagged d "text" || tagged d "input_text" then
               match get d "text" with
               | JStr text => JDict [("type", JStr "input_text"); ("text", JStr text)]
               | _ => JDict d
               end
             else if tagged d "image_url" then
               match image_source (get d "image_url") with
               | Some (url, detail) => input_image url detail
               | None => JDict d
               end
             else if tagged d "input_image" then JDict d
             else if tagged d "input_audio" then
               match audio_payload (get d "input_audio") with
               | Some (data, audio_format) => audio_file data audio_format
               | None => JDict d
               end
             else if tagged d "file" then JDict (_file_part_to_input_file (get d "file"))
             else JDict d).
  { intros d. unfold _normalize_content_part. fold (effective_tag d).
    unfold tagged.
    destruct (str_is (effective_tag d) "text" || str_is (effective_tag d) "input_text");
      [reflexivity|].
    destruct (str_is (effective_tag d) "image_url").
    { destruct (get d "image_url") as [| | | |url| |o]; try reflexivity.
      cbn. destruct (get o "url"); reflexivity. }
    destruct (str_is (effective_tag d) "input_image"); [reflexivity|].
    destruct (str_is (effective_tag d) "input_audio"); [|reflexivity].
    unfold _audio_input_to_data_url, audio_payload.
    destruct (get d "input_audio") as [| | | | | |a]; try reflexivity.
    destruct (get a "data"); try reflexivity.
    destruct (get a "format") as [| | | |fmt| |]; try reflexivity.
    unfold audio_file, _audio_mime_type.
    destruct (fmt =? "wav") eqn:Hwav.
    - apply String.eqb_eq in Hwav; subst; reflexivity.
    - destruct (fmt =? "mp3"); reflexivity. }
  assert (Hne : forall a b : string, (a =? b) = false -> a <> b)
    by (intros a b; apply String.eqb_neq).
  destruct 1 as [s|p Hs Hd|d text Htag Htext|d Htag Htext|d url detail Htag Hsrc
                |d Htag Hsrc|d Htag|d data fmt Htag Hpay|d Htag Hpay|d Htag|d Hunknown];
    cbn [normalize_part]; try rewrite Hfold.
  - reflexivity.
  - destruct p; try reflexivity; discriminate.
  - now rewrite Htag, Htext.
  - rewrite Htag. destruct (get d "text"); try reflexivity; discriminate.
  - rewrite (tagged_exclusive d _ "text" Htag), (tagged_exclusive d _ "input_text" Htag)
      by (apply Hne; reflexivity).
    cbn [orb]. now rewrite Htag, Hsrc.
  - rewrite (tagged_exclusive d _ "text" Htag), (tagged_exclusive d _ "input_text" Htag)
      by (apply Hne; reflexivity).
    cbn [orb]. now rewrite Htag, Hsrc.
  - rewrite (tagged_exclusive d _ "text" Htag), (tagged_exclusive d _ "input_text" Htag),
      (tagged_exclusive d _ "image_url" Htag) by (apply Hne; reflexivity).
    cbn [orb]. now rewrite Htag.
  - rewrite (tagged_exclusive d _ "text" Htag), (tagged_exclusive d _ "input_text" Htag),
      (tagged_exclusive d _ "image_url" Htag), (tagged_exclusive d _ "input_image" Htag)
      by (apply Hne; reflexivity).
    cbn [orb]. now rewrite Htag, Hpay.
  - rewrite (tagged_exclusive d _ "text" Htag), (tagged_exclusive d _ "input_text" Htag),
      (tagged_exclusive d _ "image_url" Htag), (tagged_exclusive d _ "input_image" Htag)
      by (apply Hne; reflexivity).
    cbn [orb]. now rewrite Htag, Hpay.
  - rewrite (tagged_exclusive d _ "text" Htag), (tagged_exclusive d _ "input_text" Htag),
      (tagged_exclusive d _ "image_url" Htag), (tagged_exclusive d _ "input_image" Htag),
      (tagged_exclusive d _ "input_audio" Htag) by (apply Hne; reflexivity).
    cbn [orb]. now rewrite Htag.
  - cbn [existsb known_tags] in Hunknown.
    repeat (apply orb_false_iff in Hunknown as [?H Hunknown]).
    now rewrite H, H0, H1, H2, H3, H4.
Qed.

Lemma part_outcome_functional (p q q' : JsonValue) :
  part_outcome p q -> part_outcome p q' -> q = q'.
Proof.
  intros H H'. apply part_outcome_normalize in H, H'. congruence.
Qed.

Lemma normalize_parts_outcomes (raw : list JsonValue) :
  Forall2 part_normalized raw (map normalize_part raw).
Proof.
  induction raw as [|p raw IH]; simpl; constructor; [|exact IH].
  apply normalize_part_outcome.
Qed.

(** The content of an emitted message is an array only when the message
    held a string or an array; each part of the array is then the outcome of
    the part of the input at the same place. *)
Lemma normalize_content_parts_outcomes (content : JsonValue) (parts : list JsonValue) :
  _normalize_content_parts content = JList parts ->
  (exists text, content = JStr text /\ parts = [input_text text])
  \/ (exists raw, content = JList raw /\ Forall2 part_normalized raw parts).
Proof.
  destruct content as [| | | |s|raw|d]; simpl; try discriminate.
  - intros H; inversion H; left; now exists s.
  - intros H; inversion H; right; exists raw; split;
      [reflexivity|apply normalize_parts_outcomes].
  - destruct (normalize_content_part_result d) as [d' [Hd' _]].
    rewrite Hd'. discriminate.
Qed.

(** C2, as stated, fails: a part of a tag the normalizer does not know is
    emitted as it came, inside the content array of an assistant message
    item. *)
Lemma unknown_part_emitted_unchanged :
  coerce_messages "" [JDict refusal_message] = inr ("", [JDict refusal_message])
  /\ is_message_item refusal_message = true
  /\ get refusal_message "content" = JList [refusal_part]
  /\ canonical_part refusal_part = false.
Proof. repeat split. Qed.

(** C2, amended: when [coerce_messages] succeeds, every emitted user or
    assistant message item is an input message with its content normalized;
    if that content is an array, the message held either a bare string, and
    the array is [[{type: input_text, text}]], or an array, and each emitted
    part is the outcome of the part of the input at the same place: a part
    with a canonical tag (built from it, or an [input_image] part kept as it
    is), or that part itself passed through unchanged, which is then not an
    object, has an unknown tag, or is a malformed text, image or audio part.
    The outcome of a part is determined by the part.  A
    message of string content always normalizes to the one-element array, and
    every user message, and every assistant message of non-empty content, is
    emitted. *)
Theorem emitted_content_parts :
  (forall existing messages instructions items item,
      coerce_messages existing messages = inr (instructions, items) ->
      In (JDict item) items -> is_message_item item = true ->
      exists message,
        In (JDict message) messages
        /\ item = _normalize_message_content message
        /\ get item "role" = get message "role"
        /\ forall parts,
            get item "content" = JList parts ->
            (exists text,
                get message "content" = JStr text /\ parts = [input_text text])
            \/ (exists raw,
                  get message "content" = JList raw
                  /\ Forall2 part_normalized raw parts))
  /\ (forall part outcome outcome',
        part_outcome part outcome -> part_outcome part outcome' -> outcome = outcome')
  /\ (forall message text,
        get message "content" = JStr text ->
        get (_normalize_message_content message) "content" = JList [input_text text])
  /\ (forall existing messages instructions items message,
        coerce_messages existing messages = inr (instructions, items) ->
        In (JDict message) messages ->
        get message "role" = JStr "user"
        \/ (get message "role" = JStr "assistant"
            /\ _has_non_empty_content
                 (get (_normalize_message_content message) "content") = true) ->
        In (JDict (_normalize_message_content message)) items).
Proof.
  split; [|split; [exact part_outcome_functional|split]].
  - intros existing messages instructions items item H Hin Hmsg.
    unfold coerce_messages in H.
    apply bind_inr in H as [[ip im] [Hloop H]]. simpl in H.
    injection H as _ <-.
    apply coerce_loop_items in Hloop as [new [-> Hnew]]. simpl in Hin.
    destruct (Hnew item Hin Hmsg) as [message [Hmem Hitem]].
    exists message. split; [exact Hmem|]. split; [exact Hitem|].
    subst item. split; [apply normalize_message_content_role|].
    intros parts. rewrite normalize_message_content_content.
    apply normalize_content_parts_outcomes.
  - intros message text H.
    rewrite normalize_message_content_content, H. reflexivity.
  - intros existing messages instructions items message H Hin Hrole.
    unfold coerce_messages in H.
    apply bind_inr in H as [[ip im] [Hloop H]]. inversion H; subst; clear H.
    now apply (coerce_loop_emits messages message Hin Hrole _ _ _ _ Hloop).
Qed.

Lemma emitted_content_parts_witness :
  (exists message,
      In (JDict message) scenario
      /\ [("role", JStr "user"); ("content", JList [input_text "Hi"])]
         = _normalize_message_content message
      /\ JStr "user" = get message "role"
      /\ forall parts,
          JList [input_text "Hi"] = JList parts ->
          (exists text, get message "content" = JStr text /\ parts = [input_text text])
          \/ (exists raw,
                get message "content" = JList raw
                /\ Forall2 part_normalized raw parts))
  /\ (exists message,
        In (JDict message) [JDict mixed_message]
        /\ mixed_item = _normalize_message_content message
        /\ JStr "user" = get message "role"
        /\ forall parts,
            JList mixed_parts = JList parts ->
            (exists text, get message "content" = JStr text /\ parts = [input_text text])
            \/ (exists raw,
                  get message "content" = JList raw
                  /\ Forall2 part_normalized raw parts))
  /\ input_image "http://x/y.png" None = normalize_part mixed_image
  /\ get (_normalize_message_content [("role", JStr "user"); ("content", JStr "Hi")])
       "content"
     = JList [input_text "Hi"]
  /\ In (JDict (_normalize_message_content [("role", JStr "user"); ("content", JStr "Hi")]))
       scenario_items.
Proof.
  split; [|split; [|split; [|split]]].
  - apply (proj1 emitted_content_parts "" scenario "Be terse." scenario_items
             [("role", JStr "user"); ("content", JList [input_text "Hi"])]);
      [reflexivity|left; reflexivity|reflexivity].
  - apply (proj1 emitted_content_parts "" [JDict mixed_message] "" [JDict mixed_item]
             mixed_item);
      [reflexivity|left; reflexivity|reflexivity].
  - apply (proj1 (proj2 emitted_content_parts) mixed_image).
    + apply (outcome_image _ "http://x/y.png" None); reflexivity.
    + destruct (normalize_part_outcome mixed_image) as [H _]. exact H.
  - apply (proj1 (proj2 (proj2 emitted_content_parts))
             [("role", JStr "user"); ("content", JStr "Hi")] "Hi").
    reflexivity.
  - apply (proj2 (proj2 (proj2 emitted_content_parts)) "" scenario "Be terse."
             scenario_items [("role", JStr "user"); ("content", JStr "Hi")]);
      [reflexivity|right; left; reflexivity|left; reflexivity].
Defined.

(* ================================================================= *)
(** ** Text-only content of system and developer messages *)

Lemma none_or_text_type (d : dict) :
  none_or_text (get d "type") = type_absent_null_or_text d.
Proof.
  unfold get, type_absent_null_or_text.
  destruct (lookup d "type") as [[]|]; reflexivity.
Qed.

Lemma ensure_text_only_object_shape (d : dict) (role : str) :
  ensure_text_only_object d role =
  if text_part type_absent_null_or_text (JDict d) then inr tt
  else inl (text_only_error role).
Proof.
  unfold ensure_text_only_object, text_part.
  rewrite none_or_text_type.
  destruct (type_absent_null_or_text d); simpl; [|reflexivity].
  destruct (get d "text"); reflexivity.
Qed.

Lemma ensure_text_only_parts_shape (parts : list JsonValue) (role : str) :
  ensure_text_only_parts parts role =
  if forallb (text_part type_absent_null_or_text) parts then inr tt
  else inl (text_only_error role).
Proof.
  induction parts as [|part parts IH]; simpl; [reflexivity|].
  destruct part as [| | | |s| |d]; try reflexivity.
  - exact IH.
  - rewrite ensure_text_only_object_shape.
    change (type_absent_null_or_text d && is_str (get d "text"))
      with (text_part type_absent_null_or_text (JDict d)).
    destruct (text_part type_absent_null_or_text (JDict d)); simpl;
      [exact IH|reflexivity].
Qed.

Lemma ensure_text_only_content_shape (content : JsonValue) (role : str) :
  _ensure_text_only_content content role =
  if text_only type_absent_null_or_text content then inr tt
  else inl (text_only_error role).
Proof.
  destruct content as [| | | |s|parts|d]; try reflexivity.
  - apply ensure_text_only_parts_shape.
  - apply ensure_text_only_object_shape.
Qed.

Lemma coerce_instruction_message (message : dict) (role : str)
    (ip : list str) (im : list JsonValue) :
  get message "role" = JStr role -> role = "system" \/ role = "developer" ->
  coerce_message (JDict message) ip im =
  (_ensure_text_only_content (get message "content") role ;;;
   ret ((ip ++ extracted_text (JDict message))%list, im)).
Proof.
  intros Hrole Hwhich. unfold coerce_message, extracted_text, is_instruction_message.
  rewrite Hrole.
  destruct Hwhich as [-> | ->]; simpl;
    (destruct (_ensure_text_only_content _ _); simpl; [reflexivity|];
     destruct (_content_to_text _) as [text|]; [destruct (str_truthy text)|];
     now rewrite ?app_nil_r).
Qed.

(** C5, as stated, fails: a part whose [type] is present and null is
    outside the stated shapes, and the message is accepted and its text
    merged. *)
Lemma null_type_part_accepted :
  text_only type_absent_or_text null_type_content = false
  /\ _ensure_text_only_content null_type_content "system" = inr tt
  /\ coerce_messages "" [system_message null_type_content] = inr ("Be terse.", []).
Proof. repeat split. Qed.

(** C5, amended: a system or developer message is rejected as not
    text-only exactly when its content is neither null, nor a string, nor an
    array whose every element is a string or an object with [type] absent,
    null or "text" and a string [text], nor a single such object; content
    [[{type: image_url, image_url: "http://x"}]] is rejected, and content
    "hello" is accepted and merged into the instructions. *)
Theorem text_only_enforcement :
  (forall content role,
      _ensure_text_only_content content role =
      if text_only type_absent_null_or_text content then inr tt
      else inl (text_only_error role))
  /\ (forall existing message role,
        get message "role" = JStr role -> role = "system" \/ role = "developer" ->
        NonTextContent (text_only_error role)
        /\ (text_only type_absent_null_or_text (get message "content") = false ->
            coerce_messages existing [JDict message] = inl (text_only_error role))
        /\ (text_only type_absent_null_or_text (get message "content") = true ->
            coerce_messages existing [JDict message]
            = inr (merge_policy existing
                     (join newline (extracted_text (JDict message))), []))
        /\ (forall pre post r,
              coerce_messages existing pre = inr r ->
              text_only type_absent_null_or_text (get message "content") = false ->
              coerce_messages existing (pre ++ JDict message :: post)%list
              = inl (text_only_error role)))
  /\ (forall existing,
        coerce_messages existing [system_message image_content]
        = inl (text_only_error "system"))
  /\ (forall existing,
        coerce_messages existing [system_message (JStr "hello")]
        = inr (merge_policy existing "hello", []))
  /\ coerce_messages "" [system_message (JStr "hello")] = inr ("hello", []).
Proof.
  split; [exact ensure_text_only_content_shape|].
  split; [|repeat split; intros existing; destruct existing; reflexivity].
  intros existing message role Hrole Hwhich.
  assert (Hm : forall ip im,
             coerce_message (JDict message) ip im =
             if text_only type_absent_null_or_text (get message "content")
             then inr ((ip ++ extracted_text (JDict message))%list, im)
             else inl (text_only_error role)).
  { intros ip im. rewrite (coerce_instruction_message _ _ _ _ Hrole Hwhich).
    rewrite ensure_text_only_content_shape.
    destruct (text_only _ _); reflexivity. }
  split; [now exists role|].
  split; [|split].
  - intros Hshape. unfold coerce_messages; cbn [coerce_loop].
    now rewrite Hm, Hshape.
  - intros Hshape. unfold coerce_messages; cbn [coerce_loop].
    rewrite Hm, Hshape; cbn [bind ret fst snd app].
    rewrite merge_instructions_policy, filter_all_true; [reflexivity|].
    pose proof (extracted_texts_non_empty [JDict message]) as H.
    unfold extracted_texts in H; cbn [flat_map] in H. now rewrite app_nil_r in H.
  - intros pre post r Hpre Hshape.
    apply (proj2 (coerce_messages_rejected_at existing pre post (JDict message)
                    (text_only_error role)
                    ltac:(intros ip im; now rewrite Hm, Hshape)) r Hpre).
Qed.

Lemma text_only_enforcement_witness :
  coerce_messages "Be brief."
    [JDict [("role", JStr "developer"); ("content", JList [JInt 7])]]
  = inl (text_only_error "developer")
  /\ coerce_messages "Be brief."
       [JDict [("role", JStr "developer");
               ("content", JList [JStr "Be terse."; JDict [("text", JStr "Be kind.")]])]]
     = inr (merge_policy "Be brief."
              (join newline
                 (extracted_text
                    (JDict [("role", JStr "developer");
                            ("content",
                             JList [JStr "Be terse."; JDict [("text", JStr "Be kind.")]])]))),
            [])
  /\ coerce_messages "Be brief."
       (firstn 2 scenario
          ++ JDict [("role", JStr "developer"); ("content", JList [JInt 7])]
          :: skipn 2 scenario)%list
     = inl (text_only_error "developer").
Proof.
  split; [|split].
  - apply (proj1 (proj2 (proj1 (proj2 text_only_enforcement) "Be brief."
             [("role", JStr "developer"); ("content", JList [JInt 7])] "developer"
             eq_refl (or_intror eq_refl))));
      reflexivity.
  - apply (proj1 (proj2 (proj2 (proj1 (proj2 text_only_enforcement) "Be brief."
             [("role", JStr "developer");
              ("content", JList [JStr "Be terse."; JDict [("text", JStr "Be kind.")]])]
             "developer" eq_refl (or_intror eq_refl)))));
      reflexivity.
  - apply (proj2 (proj2 (proj2 (proj1 (proj2 text_only_enforcement) "Be brief."
             [("role", JStr "developer"); ("content", JList [JInt 7])] "developer"
             eq_refl (or_intror eq_refl))))
             (firstn 2 scenario) (skipn 2 scenario)
             ("Be brief." ++ newline ++ "Be terse.", firstn 1 scenario_items));
      reflexivity.
Defined.

(* ================================================================= *)
(** ** Coercing in pieces *)

Lemma coerce_message_acc (m : JsonValue) (ip : list str) (im : list JsonValue) :
  coerce_message m ip im =
  match coerce_message m [] [] with
  | inl e => inl e
  | inr acc => inr ((ip ++ fst acc)%list, (im ++ snd acc)%list)
  end.
Proof.
  unfold coerce_message.
  destruct m as [| | | | | |message]; try reflexivity.
  destruct (get message "role") as [| | | |role| |]; try reflexivity.
  destruct (negb (supported_role role)); [reflexivity|].
  destruct ((role =? "system") || (role =? "developer")).
  { destruct (_ensure_text_only_content _ _); simpl; [reflexivity|].
    destruct (_content_to_text _) as [text|]; [destruct (str_truthy text)|];
      simpl; now rewrite ?app_nil_r. }
  destruct (role =? "tool").
  { destruct (_normalize_tool_message message); simpl; now rewrite ?app_nil_r. }
  destruct (role =? "assistant").
  { destruct (_normalize_assistant_message_items message); simpl;
      now rewrite ?app_nil_r. }
  simpl. now rewrite app_nil_r.
Qed.

Lemma coerce_loop_acc (messages : list JsonValue) :
  forall ip im,
    coerce_loop messages ip im =
    match coerce_loop messages [] [] with
    | inl e => inl e
    | inr acc => inr ((ip ++ fst acc)%list, (im ++ snd acc)%list)
    end.
Proof.
  induction messages as [|m messages IH]; intros ip im; cbn [coerce_loop].
  - simpl. now rewrite !app_nil_r.
  - rewrite (coerce_message_acc m ip im).
    destruct (coerce_message m [] []) as [e|[t i]]; cbn [bind fst snd]; [reflexivity|].
    rewrite (IH (ip ++ t)%list (im ++ i)%list), (IH t i).
    destruct (coerce_loop messages [] []) as [e|[t' i']]; cbn [fst snd]; [reflexivity|].
    now rewrite !app_assoc.
Qed.

Lemma join_cons (sep x : str) (rest : list str) :
  rest <> [] -> join sep (x :: rest) = x ++ sep ++ join sep rest.
Proof. destruct rest; [congruence|reflexivity]. Qed.

Lemma join_non_empty (sep : str) (parts : list str) :
  Forall (fun p => str_truthy p = true) parts -> parts <> [] ->
  str_truthy (join sep parts) = true.
Proof.
  intros Hall Hne. destruct Hall as [|p parts Hp _]; [congruence|].
  destruct p; [discriminate|]. unfold join; simpl. now destruct parts.
Qed.

Lemma join_app (sep : str) (a b : list str) :
  a <> [] -> b <> [] -> join sep (a ++ b) = join sep a ++ sep ++ join sep b.
Proof.
  intros Ha Hb. induction a as [|x a IH]; [congruence|].
  destruct a as [|y a].
  - simpl. destruct b; [congruence|reflexivity].
  - change ((x :: y :: a) ++ b)%list with (x :: ((y :: a) ++ b))%list.
    rewrite join_cons by discriminate.
    rewrite join_cons by discriminate.
    rewrite IH by discriminate. now rewrite !append_assoc.
Qed.

Lemma filter_truthy (parts : list str) :
  Forall (fun p => str_truthy p = true) (filter str_truthy parts).
Proof.
  apply Forall_forall. intros p Hp. now apply filter_In in Hp.
Qed.

Lemma merge_instructions_app (existing : str) (a b : list str) :
  _merge_instructions existing (a ++ b) =
  _merge_instructions (_merge_instructions existing a) b.
Proof.
  rewrite !merge_instructions_policy, filter_app.
  pose proof (filter_truthy a) as Ha. pose proof (filter_truthy b) as Hb.
  destruct (filter str_truthy a) as [|x fa] eqn:Ea.
  { reflexivity. }
  destruct (filter str_truthy b) as [|y fb] eqn:Eb.
  { rewrite app_nil_r. simpl (join newline []). unfold merge_policy at 2.
    reflexivity. }
  rewrite join_app by discriminate.
  pose proof (join_non_empty newline _ Ha ltac:(discriminate)) as Ja.
  pose proof (join_non_empty newline _ Hb ltac:(discriminate)) as Jb.
  destruct (join newline (x :: fa)) as [|ca sa]; [discriminate|].
  destruct (join newline (y :: fb)) as [|cb sb]; [discriminate|].
  destruct existing as [|ce se]; simpl; [reflexivity|].
  now rewrite !append_assoc.
Qed.

(** X1: [coerce_messages] can be run in pieces: coercing [pre ++ post] is
    coercing [pre], then [post] with the instructions obtained so far, and
    appending the items; a failure of either piece is the failure of the
    whole, that of [pre] first. *)
Theorem coerce_messages_incremental :
  forall existing pre post,
    coerce_messages existing (pre ++ post) =
    (first <- coerce_messages existing pre ;;
     second <- coerce_messages (fst first) post ;;
     ret (fst second, (snd first ++ snd second)%list)).
Proof.
  intros existing pre post. unfold coerce_messages.
  rewrite coerce_loop_app.
  destruct (coerce_loop pre [] []) as [e|[t1 i1]]; cbn [bind fst snd ret]; [reflexivity|].
  rewrite (coerce_loop_acc post t1 i1).
  destruct (coerce_loop post [] []) as [e|[t2 i2]]; cbn [bind fst snd ret]; [reflexivity|].
  now rewrite merge_instructions_app.
Qed.

(* ================================================================= *)
(** ** Failures of the router *)

(** X2: after an accepted prefix, the first message that is not an object,
    that has no string [role], or whose [role] is not one of the five
    supported, fails the call with the matching failure, whatever follows. *)
Theorem role_router_failures :
  forall existing pre post message accepted,
    coerce_messages existing pre = inr accepted ->
    let input := (pre ++ message :: post)%list in
    (is_json_dict message = false ->
       coerce_messages existing input = inl not_an_object_error)
    /\ (forall d, message = JDict d -> is_str (get d "role") = false ->
          coerce_messages existing input = inl missing_role_error)
    /\ (forall d role, message = JDict d -> get d "role" = JStr role ->
          ~ In role _SUPPORTED_MESSAGE_ROLES ->
          coerce_messages existing input = inl (unsupported_role_error role)).
Proof.
  intros existing pre post message accepted Hpre input.
  split; [|split].
  - intros Hshape.
    apply (proj2 (coerce_messages_rejected_at existing pre post message _
                    ltac:(intros ip im; destruct message; try reflexivity; discriminate))
             accepted Hpre).
  - intros d -> Hrole.
    apply (proj2 (coerce_messages_rejected_at existing pre post (JDict d) _
                    ltac:(intros ip im; unfold coerce_message;
                          destruct (get d "role"); try reflexivity; discriminate))
             accepted Hpre).
  - intros d role -> Hrole Hnot.
    assert (Hs : supported_role role = false).
    { unfold supported_role. apply not_true_is_false. intros H.
      apply existsb_exists in H as [r [Hin Heq]].
      apply String.eqb_eq in Heq; subst r. contradiction. }
    apply (proj2 (coerce_messages_rejected_at existing pre post (JDict d) _
                    ltac:(intros ip im; unfold coerce_message;
                          rewrite Hrole, Hs; reflexivity))
             accepted Hpre).
Qed.

Lemma role_router_failures_witness :
  coerce_messages "" (firstn 2 scenario ++ JStr "Hi" :: skipn 2 scenario)
  = inl not_an_object_error
  /\ coerce_messages "" (firstn 2 scenario ++ JDict [("role", JInt 1)] :: skipn 2 scenario)
     = inl missing_role_error
  /\ coerce_messages ""
       (firstn 2 scenario ++ JDict [("role", JStr "function")] :: skipn 2 scenario)
     = inl (unsupported_role_error "function").
Proof.
  pose proof (role_router_failures "" (firstn 2 scenario) (skipn 2 scenario)) as H.
  split; [|split].
  - apply (proj1 (H (JStr "Hi") ("Be terse.", firstn 1 scenario_items) eq_refl)).
    reflexivity.
  - apply (proj1 (proj2 (H (JDict [("role", JInt 1)])
                           ("Be terse.", firstn 1 scenario_items) eq_refl))
             [("role", JInt 1)]); reflexivity.
  - apply (proj2 (proj2 (H (JDict [("role", JStr "function")])
                           ("Be terse.", firstn 1 scenario_items) eq_refl))
             [("role", JStr "function")] "function"); try reflexivity.
    simpl. intuition discriminate.
Defined.

(* ================================================================= *)
(** ** What is emitted *)

Lemma supported_role_cases (role : str) :
  supported_role role = true ->
  role = "system" \/ role = "developer" \/ role = "user"
  \/ role = "assistant" \/ role = "tool".
Proof.
  unfold supported_role. intros H.
  apply existsb_exists in H as [r [Hin Heq]].
  apply String.eqb_eq in Heq; subst r. simpl in Hin. intuition.
Qed.

Lemma normalize_tool_calls_kind (tool_calls : list JsonValue) :
  forall index calls,
    normalize_tool_calls tool_calls index = inr calls ->
    Forall emitted_item_kind calls.
Proof.
  induction tool_calls as [|tc tool_calls IH]; intros index calls H; simpl in H.
  - inversion H; constructor.
  - destruct tc as [| | | | | |tool_call]; try discriminate.
    apply bind_inr in H as [call [Hcall H]].
    apply bind_inr in H as [rest [Hrest H]].
    inversion H; subst; clear H.
    constructor; [|now apply (IH _ _ Hrest)].
    unfold _normalize_assistant_tool_call in Hcall.
    destruct (negb (nonempty_str (get tool_call "id"))); [discriminate|].
    destruct (get tool_call "function") as [| | | | | |function]; try discriminate.
    destruct (negb (nonempty_str (get function "name"))); [discriminate|].
    inversion Hcall. eexists; split; [reflexivity|].
    right; right; split; [reflexivity|left; reflexivity].
Qed.

Lemma coerce_message_kind (m : JsonValue) (t : list str) (items : list JsonValue) :
  coerce_message m [] [] = inr (t, items) -> Forall emitted_item_kind items.
Proof.
  unfold coerce_message.
  destruct m as [| | | | | |message]; try discriminate.
  destruct (get message "role") as [| | | |role| |] eqn:Hrole; try discriminate.
  destruct (supported_role role) eqn:Hs; [|discriminate]. cbn [negb].
  destruct ((role =? "system") || (role =? "developer")) eqn:Hsys.
  { intros H. apply bind_inr in H as [_ [_ H]].
    destruct (_content_to_text _) as [text|]; [destruct (str_truthy text)|];
      inversion H; constructor. }
  destruct (role =? "tool") eqn:Htool.
  { intros H. apply bind_inr in H as [item [Hitem H]]. inversion H; subst.
    rewrite normalize_tool_message_resolved in Hitem.
    destruct (resolved_call_id message); inversion Hitem; subst.
    repeat constructor. eexists; split; [reflexivity|].
    right; right; split; [reflexivity|right; reflexivity]. }
  destruct (role =? "assistant") eqn:Hassistant.
  { apply String.eqb_eq in Hassistant; subst role.
    intros H. apply bind_inr in H as [items' [Hitems H]]. inversion H; subst.
    unfold _normalize_assistant_message_items in Hitems.
    assert (Hmsg : emitted_item_kind (JDict (_normalize_message_content message))).
    { eexists; split; [reflexivity|]. right; left.
      now rewrite normalize_message_content_role. }
    assert (Hhead : Forall emitted_item_kind
                      (if _has_non_empty_content
                            (get (_normalize_message_content message) "content")
                       then [JDict (_normalize_message_content message)] else [])).
    { destruct (_has_non_empty_content _); repeat constructor; exact Hmsg. }
    destruct (get message "tool_calls") as [| | | | |tcs|];
      try (inversion Hitems; subst; exact Hhead).
    apply bind_inr in Hitems as [calls [Hcalls Hitems]].
    inversion Hitems; subst. simpl. apply Forall_app; split; [exact Hhead|].
    now apply (normalize_tool_calls_kind _ _ _ Hcalls). }
  intros H. inversion H; subst. repeat constructor.
  eexists; split; [reflexivity|]. left.
  rewrite normalize_message_content_role, Hrole.
  apply orb_false_elim in Hsys as [Hsystem Hdeveloper].
  destruct (supported_role_cases role Hs) as [ -> | [ -> | [ -> | [ -> | -> ]]]];
    first [reflexivity|discriminate].
Qed.

Lemma coerce_loop_kind (messages : list JsonValue) :
  forall t items,
    coerce_loop messages [] [] = inr (t, items) -> Forall emitted_item_kind items.
Proof.
  induction messages as [|m messages IH]; intros t items H; cbn [coerce_loop] in H.
  - inversion H; constructor.
  - apply bind_inr in H as [[t1 i1] [H1 H2]]. cbn [fst snd] in H2.
    rewrite coerce_loop_acc in H2.
    destruct (coerce_loop messages [] []) as [e|[t2 i2]] eqn:E; [discriminate|].
    inversion H2; subst. apply Forall_app; split.
    + now apply (coerce_message_kind m t1).
    + now apply (IH t2).
Qed.

(** X3: every emitted item is an object that is a user message, an
    assistant message, or has no [role] and is tagged [function_call] or
    [function_call_output]: no system, developer or tool message is ever
    emitted. *)
Theorem emitted_items_kinds :
  forall existing messages instructions items,
    coerce_messages existing messages = inr (instructions, items) ->
    Forall emitted_item_kind items.
Proof.
  intros existing messages instructions items H. unfold coerce_messages in H.
  apply bind_inr in H as [[t i] [Hloop H]]. inversion H; subst.
  now apply (coerce_loop_kind messages t).
Qed.

Lemma emitted_items_kinds_witness : Forall emitted_item_kind scenario_items.
Proof.
  apply (emitted_items_kinds "" scenario "Be terse." scenario_items). reflexivity.
Defined.

(* ================================================================= *)
(** ** Role partition *)

Lemma coerce_instruction_only (m : JsonValue) (t : list str) (items : list JsonValue) :
  coerce_message m [] [] = inr (t, items) ->
  if is_instruction_message m then items = [] else t = [].
Proof.
  intros H. pose proof (coerce_message_parts _ _ _ _ _ H) as Ht. simpl in Ht.
  unfold is_instruction_message. unfold coerce_message in H.
  destruct m as [| | | | | |message]; try discriminate.
  destruct (get message "role") as [| | | |role| |] eqn:Hrole; try discriminate.
  unfold str_is.
  destruct (negb (supported_role role)); [discriminate|].
  destruct ((role =? "system") || (role =? "developer")) eqn:Hsys.
  - apply bind_inr in H as [_ [_ H]].
    destruct (_content_to_text _) as [text|]; [destruct (str_truthy text)|];
      now inversion H.
  - subst t. unfold extracted_text, is_instruction_message.
    rewrite Hrole. unfold str_is. now rewrite Hsys.
Qed.

Lemma coerce_loop_partition (messages : list JsonValue) :
  forall t items,
    coerce_loop messages [] [] = inr (t, items) ->
    coerce_loop (filter is_instruction_message messages) [] [] = inr (t, [])
    /\ coerce_loop (filter (fun m => negb (is_instruction_message m)) messages) [] []
       = inr ([], items).
Proof.
  induction messages as [|m messages IH]; intros t items H; cbn [coerce_loop] in H.
  - inversion H; split; reflexivity.
  - apply bind_inr in H as [[t1 i1] [H1 H2]]. cbn [fst snd] in H2.
    rewrite coerce_loop_acc in H2.
    destruct (coerce_loop messages [] []) as [e|[t2 i2]] eqn:E; [discriminate|].
    inversion H2; subst; clear H2. cbn [fst snd].
    destruct (IH t2 i2 eq_refl) as [IHi IHo].
    pose proof (coerce_instruction_only m t1 i1 H1) as Hm.
    cbn [filter]. destruct (is_instruction_message m); cbn [negb]; subst.
    + split.
      * cbn [coerce_loop]. rewrite H1; cbn [bind fst snd].
        rewrite coerce_loop_acc, IHi. reflexivity.
      * exact IHo.
    + split.
      * exact IHi.
      * cbn [coerce_loop]. rewrite H1; cbn [bind fst snd].
        rewrite coerce_loop_acc, IHo. reflexivity.
Qed.

(** X4: system and developer messages only feed the instructions and the
    other messages only the items: the instruction messages alone give the
    same instructions and no item, the others alone give the same items and
    leave the instructions as they were. *)
Theorem role_partition :
  forall existing messages instructions items,
    coerce_messages existing messages = inr (instructions, items) ->
    coerce_messages existing (filter is_instruction_message messages)
    = inr (instructions, [])
    /\ coerce_messages existing
         (filter (fun m => negb (is_instruction_message m)) messages)
       = inr (existing, items).
Proof.
  intros existing messages instructions items H. unfold coerce_messages in *.
  apply bind_inr in H as [[t i] [Hloop H]]. inversion H; subst; clear H.
  destruct (coerce_loop_partition _ _ _ Hloop) as [Hi Ho].
  rewrite Hi, Ho. split; reflexivity.
Qed.

Lemma role_partition_witness :
  coerce_messages "" (filter is_instruction_message scenario) = inr ("Be terse.", [])
  /\ coerce_messages "" (filter (fun m => negb (is_instruction_message m)) scenario)
     = inr ("", scenario_items).
Proof.
  apply (role_partition "" scenario "Be terse." scenario_items). reflexivity.
Defined.

(* ================================================================= *)
(** ** Assistant messages that leave no trace *)

Lemma blank_content_not_emitted (message : dict) :
  blank_content (get message "content") = true ->
  _has_non_empty_content (get (_normalize_message_content message) "content") = false.
Proof.
  rewrite normalize_message_content_content.
  destruct (get message "content") as [| | | |s| |]; try discriminate.
  - reflexivity.
  - simpl. intros H. apply negb_true_iff in H. now rewrite H.
Qed.

(** X5: an assistant message whose content is null or blank and whose
    [tool_calls] is not a list yields no item, and the call returns what it
    returns without that message. *)
Theorem blank_assistant_message_dropped :
  forall existing pre post message,
    get message "role" = JStr "assistant" ->
    blank_content (get message "content") = true ->
    is_json_list (get message "tool_calls") = false ->
    _normalize_assistant_message_items message = inr []
    /\ coerce_messages existing (pre ++ JDict message :: post)%list
       = coerce_messages existing (pre ++ post)%list.
Proof.
  intros existing pre post message Hrole Hblank Hcalls.
  assert (Hitems : _normalize_assistant_message_items message = inr []).
  { unfold _normalize_assistant_message_items.
    rewrite (blank_content_not_emitted _ Hblank).
    destruct (get message "tool_calls"); try reflexivity; discriminate. }
  split; [exact Hitems|].
  unfold coerce_messages. rewrite !coerce_loop_app.
  destruct (coerce_loop pre [] []) as [e|[t i]]; cbn [bind fst snd]; [reflexivity|].
  cbn [coerce_loop]. rewrite (coerce_assistant_message _ _ _ Hrole), Hitems.
  cbn [bind ret fst snd]. now rewrite app_nil_r.
Qed.

Lemma blank_assistant_message_dropped_witness :
  _normalize_assistant_message_items blank_assistant = inr []
  /\ coerce_messages "" (firstn 2 scenario ++ JDict blank_assistant :: skipn 2 scenario)
     = coerce_messages "" (firstn 2 scenario ++ skipn 2 scenario).
Proof.
  apply (blank_assistant_message_dropped "" (firstn 2 scenario) (skipn 2 scenario)
           blank_assistant); reflexivity.
Defined.

(* ================================================================= *)
(** ** One function call per tool call *)

Lemma normalize_assistant_tool_call_item (tool_call call : dict) (index : nat) :
  _normalize_assistant_tool_call tool_call index = inr call <->
  tool_call_item (JDict tool_call) (JDict call).
Proof.
  unfold _normalize_assistant_tool_call. split.
  - destruct (get tool_call "id") as [| | | |[|c s]| |] eqn:Hid; try discriminate.
    destruct (get tool_call "function") as [| | | | | |function] eqn:Hfun;
      try discriminate.
    destruct (get function "name") as [| | | |[|c' s']| |] eqn:Hname; try discriminate.
    simpl. intros H. inversion H; subst.
    apply (tool_call_item_intro tool_call function (String c s) (String c' s'));
      trivial; discriminate.
  - intros H. inversion H as [tc function call_id name Hid Hne Hfun Hname Hnne Htc Hcall].
    subst. rewrite Hid, Hfun, Hname.
    destruct call_id; [congruence|]. destruct name; [congruence|]. reflexivity.
Qed.

(** X6: the tool calls of an assistant message are accepted exactly when
    every entry is an object with a non-empty string [id] and a [function]
    object with a non-empty string [name]; the result then holds one function
    call per entry, in order, whatever index the numbering starts at. *)
Theorem tool_calls_one_item_each :
  forall tool_calls index calls,
    normalize_tool_calls tool_calls index = inr calls <->
    Forall2 tool_call_item tool_calls calls.
Proof.
  induction tool_calls as [|tc tool_calls IH]; intros index calls; cbn [normalize_tool_calls].
  - split; intros H; inversion H; constructor.
  - split.
    + intros H. destruct tc as [| | | | | |tool_call]; try discriminate.
      apply bind_inr in H as [call [Hcall H]].
      apply bind_inr in H as [rest [Hrest H]].
      inversion H; subst. constructor.
      * now apply (normalize_assistant_tool_call_item tool_call call index).
      * now apply (IH (S index)).
    + intros H. inversion H as [|tc' call tcs' rest Hitem Hrest]; subst.
      destruct Hitem as [tool_call function call_id name Hid Hne Hfun Hname Hnne].
      assert (Hcall : _normalize_assistant_tool_call tool_call index
                      = inr (function_call call_id name
                               (_normalize_tool_call_arguments (get function "arguments"))))
        by (apply normalize_assistant_tool_call_item; now constructor).
      rewrite Hcall. cbn [bind].
      apply (IH (S index)) in Hrest. rewrite Hrest. reflexivity.
Qed.

Lemma tool_calls_one_item_each_witness :
  Forall2 tool_call_item [lookup_call] [JDict (function_call "c1" "lookup" "{}")].
Proof.
  apply (proj1 (tool_calls_one_item_each [lookup_call] 0
                  [JDict (function_call "c1" "lookup" "{}")])).
  reflexivity.
Defined.

Lemma normalize_tool_calls_app (pre rest : list JsonValue) :
  forall index,
    normalize_tool_calls (pre ++ rest) index =
    (calls <- normalize_tool_calls pre index ;;
     more <- normalize_tool_calls rest (index + length pre) ;;
     ret (calls ++ more)%list).
Proof.
  induction pre as [|tc pre IH]; intros index; cbn [normalize_tool_calls app length].
  - rewrite Nat.add_0_r. cbn [bind].
    destruct (normalize_tool_calls rest index); reflexivity.
  - destruct tc as [| | | | | |tool_call]; try reflexivity.
    destruct (_normalize_assistant_tool_call tool_call index); cbn [bind]; [reflexivity|].
    rewrite IH. replace (S index + length pre) with (index + S (length pre)) by lia.
    destruct (normalize_tool_calls pre (S index)); cbn [bind]; [reflexivity|].
    destruct (normalize_tool_calls rest _); reflexivity.
Qed.

Lemma tool_calls_item_index (tool_calls calls : list JsonValue) (index : nat) :
  Forall2 tool_call_item tool_calls calls ->
  normalize_tool_calls tool_calls index = inr calls.
Proof.
  revert calls index.
  induction tool_calls as [|tc tool_calls IH]; intros calls index H;
    inversion H as [|tc' call tcs' rest Hitem Hrest]; subst; cbn [normalize_tool_calls].
  - reflexivity.
  - destruct Hitem as [tool_call function call_id name Hid Hne Hfun Hname Hnne].
    unfold _normalize_assistant_tool_call. rewrite Hid, Hfun, Hname.
    destruct call_id; [congruence|]. destruct name; [congruence|].
    cbn. now rewrite (IH _ (S index) Hrest).
Qed.

(** X7: when an entry of [tool_calls] is malformed and the entries before
    it are well formed, the failure names the position of that entry, and the
    checks come in the order: object, [id], [function], [name]. *)
Theorem tool_call_failure_names_index :
  forall message pre bad post calls,
    get message "tool_calls" = JList (pre ++ bad :: post) ->
    Forall2 tool_call_item pre calls ->
    (is_json_dict bad = false ->
       _normalize_assistant_message_items message
       = inl (tool_call_object_error (length pre)))
    /\ (forall d, bad = JDict d -> nonempty_str (get d "id") = false ->
          _normalize_assistant_message_items message
          = inl (tool_call_missing_id_error (length pre)))
    /\ (forall d, bad = JDict d -> nonempty_str (get d "id") = true ->
          is_json_dict (get d "function") = false ->
          _normalize_assistant_message_items message
          = inl (tool_call_function_error (length pre)))
    /\ (forall d function, bad = JDict d -> nonempty_str (get d "id") = true ->
          get d "function" = JDict function ->
          nonempty_str (get function "name") = false ->
          _normalize_assistant_message_items message
          = inl (tool_call_name_error (length pre))).
Proof.
  intros message pre bad post calls Hcalls Hpre.
  assert (Hfail : forall e,
             (forall index rest, normalize_tool_calls (bad :: rest) index = inl (e index)) ->
             _normalize_assistant_message_items message = inl (e (length pre))).
  { intros e He. unfold _normalize_assistant_message_items.
    rewrite Hcalls, normalize_tool_calls_app.
    rewrite (tool_calls_item_index _ _ 0 Hpre). cbn [bind].
    now rewrite He. }
  split; [|split; [|split]].
  - intros Hshape. apply (Hfail tool_call_object_error).
    intros index rest. destruct bad; try reflexivity; discriminate.
  - intros d -> Hid. apply (Hfail tool_call_missing_id_error).
    intros index rest. cbn [normalize_tool_calls].
    unfold _normalize_assistant_tool_call. now rewrite Hid.
  - intros d -> Hid Hfun. apply (Hfail tool_call_function_error).
    intros index rest. cbn [normalize_tool_calls].
    unfold _normalize_assistant_tool_call. rewrite Hid. cbn [negb].
    destruct (get d "function"); try reflexivity; discriminate.
  - intros d function -> Hid Hfun Hname. apply (Hfail tool_call_name_error).
    intros index rest. cbn [normalize_tool_calls].
    unfold _normalize_assistant_tool_call. rewrite Hid, Hfun. cbn [negb].
    now rewrite Hname.
Qed.

Lemma tool_call_failure_names_index_witness :
  _normalize_assistant_message_items
    [("role", JStr "assistant"); ("tool_calls", JList [lookup_call; JInt 3])]
  = inl (tool_call_object_error 1)
  /\ _normalize_assistant_message_items
       [("role", JStr "assistant");
        ("tool_calls", JList [lookup_call; JDict [("function", JInt 3)]; JInt 3])]
     = inl (tool_call_missing_id_error 1)
  /\ _normalize_assistant_message_items
       [("role", JStr "assistant");
        ("tool_calls", JList [lookup_call; JDict [("id", JStr "c2")]])]
     = inl (tool_call_function_error 1)
  /\ _normalize_assistant_message_items
       [("role", JStr "assistant"); ("tool_calls", JList [lookup_call; nameless_call])]
     = inl (tool_call_name_error 1).
Proof.
  assert (Hpre : Forall2 tool_call_item [lookup_call]
                   [JDict (function_call "c1" "lookup" "{}")]).
  { constructor; [|constructor].
    apply (tool_call_item_intro _
             [("name", JStr "lookup"); ("arguments", JStr "{}")] "c1" "lookup");
      first [reflexivity|discriminate]. }
  split; [|split; [|split]].
  - apply (proj1 (tool_call_failure_names_index
                    [("role", JStr "assistant"); ("tool_calls", JList [lookup_call; JInt 3])]
                    [lookup_call] (JInt 3) [] _ eq_refl Hpre)).
    reflexivity.
  - apply (proj1 (proj2 (tool_call_failure_names_index
                    [("role", JStr "assistant");
                     ("tool_calls",
                      JList [lookup_call; JDict [("function", JInt 3)]; JInt 3])]
                    [lookup_call] (JDict [("function", JInt 3)]) [JInt 3] _ eq_refl Hpre))
             [("function", JInt 3)]); reflexivity.
  - apply (proj1 (proj2 (proj2 (tool_call_failure_names_index
                    [("role", JStr "assistant");
                     ("tool_calls", JList [lookup_call; JDict [("id", JStr "c2")]])]
                    [lookup_call] (JDict [("id", JStr "c2")]) [] _ eq_refl Hpre)))
             [("id", JStr "c2")]); reflexivity.
  - apply (proj2 (proj2 (proj2 (tool_call_failure_names_index
                    [("role", JStr "assistant");
                     ("tool_calls", JList [lookup_call; nameless_call])]
                    [lookup_call] nameless_call [] _ eq_refl Hpre)))
             [("id", JStr "c2"); ("function", JDict [("arguments", JStr "{}")])]
             [("arguments", JStr "{}")]); reflexivity.
Defined.

(* ================================================================= *)
(** ** Fields of a normalized message *)

Lemma set_keys (d : dict) (k : string) (v : JsonValue) :
  contains d k = true -> map fst (set d k v) = map fst d.
Proof.
  unfold contains. induction d as [|[k' v'] d IH]; simpl; [discriminate|].
  destruct (k' =? k); simpl; [reflexivity|].
  intros H. now rewrite IH.
Qed.

Lemma set_set (d : dict) (k : string) (v v' : JsonValue) :
  set (set d k v) k v' = set d k v'.
Proof.
  induction d as [|[k0 v0] d IH]; simpl.
  - now rewrite String.eqb_refl.
  - destruct (k0 =? k) eqn:E; simpl; rewrite E; [reflexivity|now rewrite IH].
Qed.

Lemma normalize_content_parts_twice (content : JsonValue) :
  _normalize_content_parts (_normalize_content_parts content)
  = _normalize_content_parts content.
Proof.
  destruct content as [| | | |s|parts|d]; try reflexivity.
  - simpl. f_equal. rewrite map_map.
    apply map_ext. intros part. apply normalize_part_idempotent.
  - simpl. destruct (normalize_content_part_result d) as [d' [Hd' _]].
    rewrite Hd'. simpl. now apply normalize_content_part_idempotent with d.
Qed.

(** X8: normalizing the content of a message keeps its keys and their
    order and every field other than [content], and doing it twice is doing
    it once. *)
Theorem normalize_message_content_keeps_fields :
  forall message,
    map fst (_normalize_message_content message) = map fst message
    /\ (forall key, key <> "content" ->
          lookup (_normalize_message_content message) key = lookup message key)
    /\ _normalize_message_content (_normalize_message_content message)
       = _normalize_message_content message.
Proof.
  intros message. split; [|split].
  - unfold _normalize_message_content.
    destruct (get message "content") eqn:E; try reflexivity;
      apply set_keys, get_contains; rewrite E; discriminate.
  - intros key Hkey. unfold _normalize_message_content.
    assert (Hset : forall v, lookup (set message "content" v) key = lookup message key).
    { apply String.eqb_neq in Hkey. rewrite String.eqb_sym in Hkey.
      intros v. induction message as [|[k0 v0] d IH]; cbn [set lookup].
      - now rewrite Hkey.
      - destruct (k0 =? "content") eqn:E; cbn [lookup].
        + apply String.eqb_eq in E; subst k0. now rewrite Hkey.
        + destruct (k0 =? key); [reflexivity|exact IH]. }
    destruct (get message "content"); try reflexivity; apply Hset.
  - pose proof (normalize_message_content_content message) as Hc.
    unfold _normalize_message_content at 1. rewrite Hc.
    destruct (_normalize_content_parts (get message "content")) eqn:E;
      try reflexivity;
      rewrite <- E, normalize_content_parts_twice;
      unfold _normalize_message_content;
      (destruct (get message "content") eqn:E';
       [simpl in E; discriminate E| | | | | |]; now rewrite set_set).
Qed.

Lemma normalize_message_content_keeps_fields_witness :
  lookup (_normalize_message_content
            [("role", JStr "user"); ("content", JStr "Hi"); ("name", JStr "ada")])
    "name"
  = Some (JStr "ada").
Proof.
  apply (proj1 (proj2 (normalize_message_content_keeps_fields
                         [("role", JStr "user"); ("content", JStr "Hi");
                          ("name", JStr "ada")]))
           "name").
  discriminate.
Defined.

(* ================================================================= *)
(** ** Text of a tool result *)

(** X9: whenever a content has a non-empty text for the instruction path,
    the output of a tool result with that content is that same text. *)
Theorem tool_output_is_content_text :
  forall content text,
    _content_to_text content = Some text -> text <> "" ->
    _normalize_tool_output_value content = text.
Proof.
  intros content text H Hne.
  destruct content as [| | | |s|parts|d]; try discriminate.
  - now inversion H.
  - simpl in *. inversion H as [Htext]; clear H.
    destruct (collect_text_parts parts); [|reflexivity].
    simpl in Htext. congruence.
  - simpl in *. destruct (get d "text"); try discriminate. now inversion H.
Qed.

Lemma tool_output_is_content_text_witness :
  _normalize_tool_output_value
    (JList [JStr "42"; JInt 7; JDict [("type", JStr "text"); ("text", JStr "done")]])
  = "42" ++ newline ++ "done".
Proof.
  apply (tool_output_is_content_text
           (JList [JStr "42"; JInt 7; JDict [("type", JStr "text"); ("text", JStr "done")]])
           ("42" ++ newline ++ "done"));
    [reflexivity|discriminate].
Defined.

(* ================================================================= *)
(** ** Validated instruction content *)

Lemma ensure_parts_all_collected (parts : list JsonValue) (role : str) :
  ensure_text_only_parts parts role = inr tt ->
  length (collect_text_parts parts) = length parts.
Proof.
  induction parts as [|part parts IH]; cbn [ensure_text_only_parts collect_text_parts];
    [reflexivity|].
  destruct part as [| | | |s| |d]; try discriminate.
  - intros H. simpl. now rewrite IH.
  - unfold ensure_text_only_object.
    destruct (negb (none_or_text (get d "type"))); [discriminate|].
    destruct (get d "text"); try discriminate.
    cbn [bind ret]. intros H. simpl. now rewrite IH.
Qed.

(** X10: content accepted as text-only is null, or yields a text; when it
    is an array, every element contributes its text, none is skipped. *)
Theorem validated_content_has_text :
  forall content role,
    _ensure_text_only_content content role = inr tt ->
    (content = JNull /\ _content_to_text content = None)
    \/ (exists text, _content_to_text content = Some text
          /\ forall parts, content = JList parts ->
               length (collect_text_parts parts) = length parts).
Proof.
  intros content role H.
  destruct content as [| | | |s|parts|d]; try discriminate.
  - now left.
  - right. exists s. split; [reflexivity|discriminate].
  - right. eexists. split; [reflexivity|].
    intros parts' Heq; inversion Heq; subst.
    now apply (ensure_parts_all_collected _ role).
  - right. simpl in H. unfold ensure_text_only_object in H.
    destruct (negb (none_or_text (get d "type"))); [discriminate|].
    simpl. destruct (get d "text"); try discriminate.
    eexists. split; [reflexivity|discriminate].
Qed.

Lemma validated_content_has_text_witness :
  (JList [JStr "Be terse."; JDict [("text", JStr "")]] = JNull
   /\ _content_to_text (JList [JStr "Be terse."; JDict [("text", JStr "")]]) = None)
  \/ (exists text,
        _content_to_text (JList [JStr "Be terse."; JDict [("text", JStr "")]]) = Some text
        /\ forall parts,
            JList [JStr "Be terse."; JDict [("text", JStr "")]] = JList parts ->
            length (collect_text_parts parts) = length parts).
Proof.
  apply (validated_content_has_text
           (JList [JStr "Be terse."; JDict [("text", JStr "")]]) "system").
  reflexivity.
Defined.

(* ================================================================= *)
(** ** Existing instructions are kept *)

Lemma prefix_append (a b : string) : String.prefix a (a ++ b) = true.
Proof.
  induction a as [|c a IH]; simpl; [now destruct b|].
  destruct (ascii_dec c c); [exact IH|congruence].
Qed.

Lemma append_same (a b : string) : a ++ b = a -> b = "".
Proof. induction a as [|c a IH]; simpl; [trivial|]. intros H; inversion H; auto. Qed.

(** X11: the merged instructions always start with the existing ones, and
    they are the existing ones exactly when every extra part is empty. *)
Theorem merge_keeps_existing :
  forall existing extra_parts,
    String.prefix existing (_merge_instructions existing extra_parts) = true
    /\ (_merge_instructions existing extra_parts = existing <->
        Forall (fun part => part = "") extra_parts).
Proof.
  intros existing extra_parts. rewrite merge_instructions_policy.
  assert (Hempty : filter str_truthy extra_parts = [] <->
                   Forall (fun part => part = "") extra_parts).
  { induction extra_parts as [|p ps IH]; simpl.
    - split; constructor.
    - destruct p; simpl.
      + rewrite IH. split; [now constructor|now inversion 1].
      + split; [discriminate|inversion 1; discriminate]. }
  rewrite <- Hempty.
  pose proof (filter_truthy extra_parts) as Hall.
  destruct (filter str_truthy extra_parts) as [|p ps] eqn:E.
  { simpl. split.
    - rewrite <- (append_empty_r existing) at 2. apply prefix_append.
    - split; auto. }
  pose proof (join_non_empty newline _ Hall ltac:(discriminate)) as Hj.
  destruct (join newline (p :: ps)) as [|c s]; [discriminate|].
  destruct existing as [|ce se].
  - simpl. split; [reflexivity|]. split; discriminate.
  - cbn [merge_policy]. split; [apply prefix_append|]. split.
    + intros H. apply append_same in H. discriminate.
    + discriminate.
Qed.

Lemma merge_keeps_existing_witness :
  _merge_instructions "Be brief." [""; ""] = "Be brief.".
Proof.
  apply (proj2 (proj2 (merge_keeps_existing "Be brief." [""; ""]))).
  repeat constructor.
Defined.

(* ================================================================= *)
(** ** File and audio parts *)

Lemma nonempty_str_inv (v : JsonValue) :
  nonempty_str v = true -> exists c s, v = JStr (String c s).
Proof. destruct v as [| | | |[|c s]| |]; try discriminate. eauto. Qed.

(** X12: a file part normalizes to [input_file] alone or with exactly one
    of a non-empty [file_id] and a non-empty [file_url]; [file_id] wins over
    [file_url], which wins over inline data, and inline data becomes a data
    URL whose mime type is never empty, [application/octet-stream] when
    neither [mime_type] nor [content_type] gives one. *)
Theorem file_part_payload :
  forall file_info,
    (_file_part_to_input_file file_info = [("type", JStr "input_file")]
     \/ (exists file_id, file_id <> ""
           /\ _file_part_to_input_file file_info
              = [("type", JStr "input_file"); ("file_id", JStr file_id)])
     \/ (exists file_url, file_url <> ""
           /\ _file_part_to_input_file file_info
              = [("type", JStr "input_file"); ("file_url", JStr file_url)]))
    /\ (forall info file_id,
          file_info = JDict info -> get info "file_id" = JStr file_id -> file_id <> "" ->
          _file_part_to_input_file file_info
          = [("type", JStr "input_file"); ("file_id", JStr file_id)])
    /\ (forall info file_url,
          file_info = JDict info -> nonempty_str (get info "file_id") = false ->
          get info "file_url" = JStr file_url -> file_url <> "" ->
          _file_part_to_input_file file_info
          = [("type", JStr "input_file"); ("file_url", JStr file_url)])
    /\ (forall info data,
          file_info = JDict info -> nonempty_str (get info "file_id") = false ->
          nonempty_str (get info "file_url") = false ->
          get info "file_data" = JStr data ->
          exists mime_type,
            mime_type <> ""
            /\ _file_part_to_input_file file_info
               = [("type", JStr "input_file");
                  ("file_url", JStr ("data:" ++ mime_type ++ ";base64," ++ data))]
            /\ (nonempty_str (get info "mime_type") = false ->
                nonempty_str (get info "content_type") = false ->
                mime_type = "application/octet-stream")).
Proof.
  intros file_info. split; [|split; [|split]].
  - unfold _file_part_to_input_file.
    destruct file_info as [| | | | | |info]; auto.
    destruct (nonempty_str (get info "file_id")) eqn:Hid.
    { apply nonempty_str_inv in Hid as [c [s Hid]]. rewrite Hid.
      right; left; eexists; split; [|reflexivity]; discriminate. }
    destruct (nonempty_str (get info "file_url")) eqn:Hurl.
    { apply nonempty_str_inv in Hurl as [c [s Hurl]]. rewrite Hurl.
      right; right; eexists; split; [|reflexivity]; discriminate. }
    destruct (get info "file_data");
      try (right; right; eexists; split; [|reflexivity]; discriminate);
      destruct (get info "data"); auto;
      right; right; eexists; (split; [|reflexivity]); discriminate.
  - intros info file_id -> Hid Hne. unfold _file_part_to_input_file.
    rewrite Hid. destruct file_id; [congruence|reflexivity].
  - intros info file_url -> Hid Hurl Hne. unfold _file_part_to_input_file.
    rewrite Hid, Hurl. destruct file_url; [congruence|reflexivity].
  - intros info data -> Hid Hurl Hdata. unfold _file_part_to_input_file.
    rewrite Hid, Hurl, Hdata. cbn [negb].
    destruct (get info "mime_type") as [| | | |[|c s]| |] eqn:Hmime;
      cbn [nonempty_str str_truthy negb];
      try (exists (String c s); split; [discriminate|]; split; [reflexivity|discriminate]);
      (destruct (get info "content_type") as [| | | |[|c' s']| |] eqn:Hct;
       cbn [nonempty_str str_truthy negb];
       try (exists (String c' s'); split; [discriminate|];
            split; [reflexivity|discriminate]);
       (exists "application/octet-stream"; split; [discriminate|];
        split; reflexivity)).
Qed.

Lemma file_part_payload_witness :
  _file_part_to_input_file
    (JDict [("file_id", JStr ""); ("file_url", JStr "https://x/y.pdf");
            ("file_data", JStr "QQ==")])
  = [("type", JStr "input_file"); ("file_url", JStr "https://x/y.pdf")]
  /\ exists mime_type,
      mime_type <> ""
      /\ _file_part_to_input_file
           (JDict [("file_data", JStr "QQ=="); ("mime_type", JStr "")])
         = [("type", JStr "input_file");
            ("file_url", JStr ("data:" ++ mime_type ++ ";base64," ++ "QQ=="))]
      /\ (nonempty_str (JStr "") = false -> nonempty_str JNull = false ->
          mime_type = "application/octet-stream").
Proof.
  split.
  - apply (proj1 (proj2 (proj2 (file_part_payload _)))
             [("file_id", JStr ""); ("file_url", JStr "https://x/y.pdf");
              ("file_data", JStr "QQ==")] "https://x/y.pdf");
      first [reflexivity|discriminate].
  - apply (proj2 (proj2 (proj2 (file_part_payload _)))
             [("file_data", JStr "QQ=="); ("mime_type", JStr "")] "QQ==");
      reflexivity.
Defined.

(** X13: an [input_audio] part with string [data] and [format] is always
    rewritten into an [input_file] data URL, also when either string is
    empty; the mime type is [audio/<format>], except [audio/mpeg] for mp3. *)
Theorem audio_part_always_converted :
  forall part input_audio data audio_format,
    get part "type" = JStr "input_audio" ->
    get part "input_audio" = JDict input_audio ->
    get input_audio "data" = JStr data ->
    get input_audio "format" = JStr audio_format ->
    _normalize_content_part part
    = JDict [("type", JStr "input_file");
             ("file_url",
              JStr ("data:audio/"
                      ++ (if audio_format =? "mp3" then "mpeg" else audio_format)
                      ++ ";base64," ++ data))].
Proof.
  intros part input_audio data audio_format Htype Haudio Hdata Hformat.
  unfold _normalize_content_part. rewrite Htype. cbn.
  rewrite Haudio. unfold _audio_input_to_data_url. rewrite Hdata, Hformat.
  unfold _audio_mime_type.
  destruct (audio_format =? "wav") eqn:Hwav.
  - apply String.eqb_eq in Hwav; subst. reflexivity.
  - destruct (audio_format =? "mp3"); reflexivity.
Qed.

Lemma audio_part_always_converted_witness :
  _normalize_content_part
    [("type", JStr "input_audio");
     ("input_audio", JDict [("data", JStr ""); ("format", JStr "mp3")])]
  = JDict [("type", JStr "input_file");
           ("file_url", JStr "data:audio/mpeg;base64,")].
Proof.
  apply (audio_part_always_converted
           [("type", JStr "input_audio");
            ("input_audio", JDict [("data", JStr ""); ("format", JStr "mp3")])]
           [("data", JStr ""); ("format", JStr "mp3")] "" "mp3");
    reflexivity.
Defined.

(* ================================================================= *)
(** ** Messages are coerced one by one *)

Lemma coerce_single (existing : str) (m : JsonValue) :
  coerce_messages existing [m] =
  match coerce_message m [] [] with
  | inl e => inl e
  | inr acc => inr (_merge_instructions existing (fst acc), snd acc)
  end.
Proof.
  unfold coerce_messages. cbn [coerce_loop].
  destruct (coerce_message m [] []) as [e|[t i]]; reflexivity.
Qed.

(** X14: a sequence is accepted exactly when each of its messages is
    accepted alone, and its items are the items of its messages, one after the
    other in input order. *)
Theorem messages_coerced_independently :
  forall existing messages,
    ((exists result, coerce_messages existing messages = inr result) <->
     Forall (fun m => exists result, coerce_messages "" [m] = inr result) messages)
    /\ (forall instructions items,
          coerce_messages existing messages = inr (instructions, items) ->
          items = flat_map message_items messages).
Proof.
  intros existing messages.
  assert (Hloop : forall msgs,
             (forall t i, coerce_loop msgs [] [] = inr (t, i) ->
                Forall (fun m => exists result, coerce_messages "" [m] = inr result) msgs
                /\ i = flat_map message_items msgs)
             /\ (Forall (fun m => exists result, coerce_messages "" [m] = inr result) msgs ->
                 exists acc, coerce_loop msgs [] [] = inr acc)).
  { induction msgs as [|m msgs [IH1 IH2]]; cbn [coerce_loop].
    - split; [intros t i H; inversion H; split; [constructor|reflexivity]|].
      intros _. eexists; reflexivity.
    - split.
      + intros t i H. apply bind_inr in H as [[t1 i1] [H1 H2]]. cbn [fst snd] in H2.
        rewrite coerce_loop_acc in H2.
        destruct (coerce_loop msgs [] []) as [e|[t2 i2]] eqn:E; [discriminate|].
        inversion H2; subst; clear H2.
        destruct (IH1 t2 i2 eq_refl) as [Hall Hitems].
        split.
        * constructor; [|exact Hall].
          rewrite coerce_single, H1. eexists; reflexivity.
        * cbn [flat_map]. unfold message_items at 1.
          rewrite coerce_single, H1. cbn [fst snd]. now rewrite Hitems.
      + intros H. inversion H as [|m' msgs' [r Hm] Hrest]; subst.
        rewrite coerce_single in Hm.
        destruct (coerce_message m [] []) as [e|[t1 i1]]; [discriminate|].
        cbn [bind fst snd]. rewrite coerce_loop_acc.
        destruct (IH2 Hrest) as [acc Hacc]. rewrite Hacc. eexists; reflexivity. }
  destruct (Hloop messages) as [H1 H2]. unfold coerce_messages. split; [split|].
  - intros [result H]. apply bind_inr in H as [[t i] [H _]].
    exact (proj1 (H1 t i H)).
  - intros H. destruct (H2 H) as [acc Hacc]. rewrite Hacc. eexists; reflexivity.
  - intros instructions items H. apply bind_inr in H as [[t i] [H Hret]].
    cbn [fst snd ret] in Hret. injection Hret as _ Hi. subst items.
    exact (proj2 (H1 t i H)).
Qed.

Lemma messages_coerced_independently_witness :
  Forall (fun m => exists result, coerce_messages "" [m] = inr result) scenario
  /\ scenario_items = flat_map message_items scenario.
Proof.
  split.
  - apply (proj1 (proj1 (messages_coerced_independently "" scenario))).
    eexists; reflexivity.
  - apply (proj2 (messages_coerced_independently "" scenario) "Be terse.").
    reflexivity.
Defined.
